(** * Leverage-lens chart core of the price chart

    A shallow embedding of the numeric core of
    [src/screens/HomeScreen/PriceChart.tsx]: the helpers [viewportFor],
    [isolatedLiq] and [pnlTicks], and the parts of the [PriceChart] component
    that decide the anchor, the liquidation line and the pixel position of a
    price.  It also covers the overlays the component draws from them (the
    gridlines, the axis labels, the warning band), the market-data functions
    of [src/utils/backendApi.ts] that feed the chart, the checks on avatar
    file names of the same file, and the wait for the signature in
    [src/components/SolanaAuthScreen.tsx].

    The source computes on JavaScript numbers.  The functions below are written
    once, over an interface [JsNumber] of the operations the source uses, and
    the interface has two instances:

    - [QNum]: exact rational arithmetic.  The general statements (for every
      anchor, every leverage, ...) are proved in this instance; they describe
      the formulas of the source and leave IEEE-754 rounding out.
    - [F64]: IEEE-754 binary64 with round-to-nearest-even, built on the
      library's [SpecFloat] operations.  It evaluates the source on concrete
      inputs bit for bit, and is used for the worked examples and for the
      inputs at which a statement fails.

    No theorem below depends on the value of a division by zero: every
    divisor is [Math.max(1, _)], a non-zero literal, or is made non-zero by an
    explicit hypothesis; the one statement that also ranges over a zero
    divisor ([1 - mmr] at [mmr = 1] in the formula of [isolatedLiq]) equates
    a quotient with itself. *)

From Stdlib Require Import ZArith QArith Qminmax Qabs Qround Lqa Lia List Bool.
From Stdlib Require Import Floats.SpecFloat.
From Stdlib Require Ascii String.
Import ListNotations.

Set Implicit Arguments.

(** ** The number interface *)

Declare Scope js_scope.
Delimit Scope js_scope with js.

Class JsNumber (T : Type) : Type := {
  ofZ : Z -> T;                 (* an integer literal *)
  dec : Z -> positive -> T;     (* a decimal literal, [dec n d] is n/d *)
  add : T -> T -> T;
  sub : T -> T -> T;
  mul : T -> T -> T;
  div : T -> T -> T;
  Math_max : T -> T -> T;
  Math_min : T -> T -> T;
  Math_abs : T -> T;
  leb : T -> T -> bool;         (* [a <= b]; [a >= b] is [leb b a] *)
  ltb : T -> T -> bool;         (* [a < b]; [a > b] is [ltb b a] *)
  truthy : T -> bool            (* JavaScript truthiness of a number *)
}.

Notation "x + y" := (add x y) : js_scope.
Notation "x - y" := (sub x y) : js_scope.
Notation "x * y" := (mul x y) : js_scope.
Notation "x / y" := (div x y) : js_scope.
Notation "x <=? y" := (leb x y) : js_scope.
Notation "x >=? y" := (leb y x) : js_scope.
Notation "x >? y" := (ltb y x) : js_scope.

(** Exact rationals. *)
#[export] Instance QNum : JsNumber Q := {
  ofZ := inject_Z;
  dec := Qmake;
  add := Qplus;
  sub := Qminus;
  mul := Qmult;
  div := Qdiv;
  Math_max := Qmax;
  Math_min := Qmin;
  Math_abs := Qabs;
  leb := Qle_bool;
  ltb := fun x y => negb (Qle_bool y x);
  truthy := fun x => negb (Qeq_bool x 0)
}.

(** IEEE-754 binary64. *)
Module Binary64.

Definition prec : Z := 53.
Definition emax : Z := 1024.

Definition f64 : Type := spec_float.

Definition of_Z (z : Z) : f64 := binary_normalize prec emax z 0 false.

(** A decimal literal denotes the double nearest to its value; for the
    literals of the source, numerator and denominator are exact doubles and
    the correctly rounded quotient is that double. *)
Definition of_dec (n : Z) (d : positive) : f64 :=
  SFdiv prec emax (of_Z n) (of_Z (Zpos d)).

Definition is_neg_zero (x : f64) : bool :=
  match x with S754_zero true => true | _ => false end.

(** [Math.max]: NaN if an argument is NaN, and [+0] is above [-0]. *)
Definition fmax (a b : f64) : f64 :=
  match SFcompare a b with
  | Some Lt => b
  | Some Gt => a
  | Some Eq => if is_neg_zero a then b else a
  | None => S754_nan
  end.

Definition fmin (a b : f64) : f64 :=
  match SFcompare a b with
  | Some Lt => a
  | Some Gt => b
  | Some Eq => if is_neg_zero a then a else b
  | None => S754_nan
  end.

Definition ftruthy (x : f64) : bool :=
  match x with
  | S754_zero _ | S754_nan => false
  | _ => true
  end.

End Binary64.

#[export] Instance F64 : JsNumber Binary64.f64 := {
  ofZ := Binary64.of_Z;
  dec := Binary64.of_dec;
  add := SFadd Binary64.prec Binary64.emax;
  sub := SFsub Binary64.prec Binary64.emax;
  mul := SFmul Binary64.prec Binary64.emax;
  div := SFdiv Binary64.prec Binary64.emax;
  Math_max := Binary64.fmax;
  Math_min := Binary64.fmin;
  Math_abs := SFabs;
  leb := SFleb;
  ltb := SFltb;
  truthy := Binary64.ftruthy
}.

(** ** The helpers ([viewportFor], [isolatedLiq], [pnlTicks]) *)

Inductive Side : Type := long | short.

Record Viewport (T : Type) : Type := { yMin : T; yMax : T }.

Record PnlTick (T : Type) : Type := { pnlPct : T; price : T }.

Section Helpers.

Context {T : Type} `{JsNumber T}.
Local Open Scope js_scope.

(** A destructured parameter with a default value. *)
Definition orDefault (o : option T) (d : T) : T :=
  match o with Some x => x | None => d end.

Definition viewportFor (anchor leverage : T) (pnlSpan minBandBps : option T)
  : Viewport T :=
  let pnlSpan := orDefault pnlSpan (dec 12 10) in
  let minBandBps := orDefault minBandBps (ofZ 4) in
  let halfSpanByL := anchor * (pnlSpan / Math_max (ofZ 1) leverage) in
  let floor := anchor * (minBandBps / ofZ 10000) in
  let half := Math_max halfSpanByL floor in
  {| yMin := anchor - half; yMax := anchor + half |}.

Definition isolatedLiq (entry leverage : T) (side : Side) (mmr : T) : T :=
  let L := Math_max (ofZ 1) leverage in
  match side with
  | long => (entry * (ofZ 1 - ofZ 1 / L)) / (ofZ 1 - mmr)
  | short => (entry * (ofZ 1 + ofZ 1 / L)) / (ofZ 1 + mmr)
  end.

Definition pnlLevels : list T :=
  [ofZ (-1); dec (-5) 10; dec (-25) 100; ofZ 0; dec 25 100; dec 5 10; ofZ 1].

Definition pnlTicks (anchor leverage : T) (span : option T)
  : list (PnlTick T) :=
  let span := orDefault span (ofZ 1) in
  let levels := map (fun v => v * span) pnlLevels in
  let L := Math_max (ofZ 1) leverage in
  map (fun pnl => {| pnlPct := pnl * ofZ 100;
                     price := anchor * (ofZ 1 + pnl / L) |}) levels.

End Helpers.

(** ** The [PriceChart] component *)

(** A value that is a number, [null] or [undefined]. *)
Inductive JsOpt (T : Type) : Type :=
| JsNull : JsOpt T
| JsUndefined : JsOpt T
| JsNum : T -> JsOpt T.

Arguments JsNull {T}.
Arguments JsUndefined {T}.

(** What one render of the component reads from its props and context, after
    the lookups of the open position and of the slider trade. *)
Record ChartInputs (T : Type) : Type := {
  isPostTrade : bool;
  entryPrice : T;
  displayLeverageRaw : T;
  side : Side;
  currentPrice : T;
  liquidationPrice : JsOpt T
}.

Section Component.

Context {T : Type} `{JsNumber T}.
Local Open Scope js_scope.

Definition chartHeight : T := ofZ 200.

Definition displayLeverage (i : ChartInputs T) : T :=
  Math_max (ofZ 1) (Math_min (displayLeverageRaw i) (ofZ 500)).

(** [centerAnchor] is the component's state, a number or [null]. *)
Definition anchor (i : ChartInputs T) (centerAnchor : option T) : T :=
  if isPostTrade i then
    match centerAnchor with
    | Some a => a
    | None => if truthy (entryPrice i) then entryPrice i else currentPrice i
    end
  else currentPrice i.

Definition viewport (i : ChartInputs T) (centerAnchor : option T)
  : Viewport T :=
  viewportFor (anchor i centerAnchor) (displayLeverage i)
              (Some (dec 12 10)) (Some (ofZ 4)).

Definition range (v : Viewport T) : T := yMax v - yMin v.

Definition topOffset : T := ofZ 20.
Definition bottomOffset : T := ofZ 20.
Definition plotArea : T := chartHeight - topOffset - bottomOffset.

(** [calculateLinePosition] closes over [yMin] and [range]. *)
Definition calculateLinePosition (v : Viewport T) (price : T) : T :=
  let priceRatio := (price - yMin v) / range v in
  topOffset + plotArea * (ofZ 1 - priceRatio).

Definition DEFAULT_MMR : T := dec 5 1000.

Definition gatingOk (i : ChartInputs T) : bool :=
  ofZ 1 / displayLeverage i >=? DEFAULT_MMR.

(** The estimator is a parameter, so that a statement can say that the
    result does not come from a call of it. *)
Definition projectedLiqWith (estimate : T -> T -> Side -> T -> T)
           (i : ChartInputs T) : JsOpt T :=
  if negb (isPostTrade i) && gatingOk i
  then JsNum (estimate (currentPrice i) (displayLeverage i) (side i)
                       DEFAULT_MMR)
  else JsNull.

(** [v || undefined] *)
Definition orUndefined (v : JsOpt T) : JsOpt T :=
  match v with
  | JsNum x => if truthy x then JsNum x else JsUndefined
  | _ => JsUndefined
  end.

Definition liqToShowWith (estimate : T -> T -> Side -> T -> T)
           (i : ChartInputs T) : JsOpt T :=
  if isPostTrade i then liquidationPrice i
  else orUndefined (projectedLiqWith estimate i).

Definition projectedLiq : ChartInputs T -> JsOpt T :=
  projectedLiqWith isolatedLiq.

Definition liqToShow : ChartInputs T -> JsOpt T :=
  liqToShowWith isolatedLiq.

(** The effect on [isPostTrade, entryPrice]: the value it stores. *)
Definition seedEffect (i : ChartInputs T) : option T :=
  if isPostTrade i && (entryPrice i >? ofZ 0)
  then Some (entryPrice i) else None.

(** The recentring effect: [Some p] when it calls [setCenterAnchor(p)],
    [None] when it returns without storing. *)
Definition recenterEffect (i : ChartInputs T) (centerAnchor : option T)
  : option T :=
  if negb (isPostTrade i) then None
  else
    let half := range (viewport i centerAnchor) / ofZ 2 in
    if half <=? ofZ 0 then None
    else
      let delta :=
        Math_abs (currentPrice i - anchor i centerAnchor) in
      if delta >=? dec 85 100 * half then Some (currentPrice i) else None.

(** A stored anchor triggers a new render, and the effect runs again since
    [anchor] is among its dependencies.  [settle] follows these renders and
    returns how many times the anchor was stored, with the final state. *)
Fixpoint settle (fuel : nat) (i : ChartInputs T) (centerAnchor : option T)
  : nat * option T :=
  match fuel with
  | O => (O, centerAnchor)
  | S fuel' =>
      match recenterEffect i centerAnchor with
      | Some p =>
          let (n, st) := settle fuel' i (Some p) in (S n, st)
      | None => (O, centerAnchor)
      end
  end.

Definition withPrice (i : ChartInputs T) (p : T) : ChartInputs T :=
  {| isPostTrade := isPostTrade i;
     entryPrice := entryPrice i;
     displayLeverageRaw := displayLeverageRaw i;
     side := side i;
     currentPrice := p;
     liquidationPrice := liquidationPrice i |}.

(** A price tick: the price changes, nothing else does. *)
Definition tick (fuel : nat) (i : ChartInputs T) (centerAnchor : option T)
           (p : T) : nat * option T :=
  settle fuel (withPrice i p) centerAnchor.

(** A sequence of ticks, with the total number of recentres. *)
Fixpoint ticks (fuel : nat) (i : ChartInputs T) (centerAnchor : option T)
         (ps : list T) : nat * option T :=
  match ps with
  | [] => (O, centerAnchor)
  | p :: ps' =>
      let (n, st) := tick fuel i centerAnchor p in
      let (m, st') := ticks fuel i st ps' in
      (Nat.add n m, st')
  end.

End Component.

(** ** Definitions used by the statements *)

Section StatementDefinitions.

Local Open Scope Q_scope.

(** The half-span as the specification words it. *)
Definition halfSpan_spec (anchor leverage pnlSpan minBandBps : Q) : Q :=
  Qmax (anchor * (pnlSpan / Qmax 1 leverage))
       (anchor * (minBandBps / 10000)).

(** The estimate as the specification words it, on the clamped leverage. *)
Definition isolatedLiq_spec (entry leverage : Q) (side : Side) (mmr : Q)
  : Q :=
  let L := Qmax 1 leverage in
  match side with
  | long => entry * (1 - 1 / L) / (1 - mmr)
  | short => entry * (1 + 1 / L) / (1 + mmr)
  end.

Fixpoint strictly_increasing (l : list Q) : Prop :=
  match l with
  | [] => True
  | x :: rest =>
      match rest with
      | [] => True
      | y :: _ => x < y /\ strictly_increasing rest
      end
  end.

(** The prices mirror each other around [center]: the k-th from the start
    and the k-th from the end are at the same distance from it. *)
Definition symmetric_around (center : Q) (l : list Q) : Prop :=
  Forall2 (fun lo hi => center - lo == hi - center) l (rev l).

(** The inputs of a chart with an open long position entered at [entry]. *)
Definition trackedAt {T : Type} `{JsNumber T} (entry leverage : T)
  : ChartInputs T :=
  {| isPostTrade := true; entryPrice := entry;
     displayLeverageRaw := leverage; side := long;
     currentPrice := entry; liquidationPrice := JsUndefined |}.

(** Half of the visible range when the stored anchor is [a]. *)
Definition halfRange (i : ChartInputs Q) (a : Q) : Q :=
  range (viewport i (Some a)) / 2.

End StatementDefinitions.

(** ** The overlays of the chart *)

(** The top edge and the height of the warning band, in pixels. *)
Record Band (T : Type) : Type := { bandTop : T; bandHeight : T }.

Section Overlays.

Context {T : Type} `{JsNumber T}.
Local Open Scope js_scope.

(** [liqToShow ? calculateLinePosition(liqToShow) : 0] *)
Definition liquidationLineTop (i : ChartInputs T) (centerAnchor : option T)
  : T :=
  match liqToShow i with
  | JsNum x =>
      if truthy x then calculateLinePosition (viewport i centerAnchor) x
      else ofZ 0
  | _ => ofZ 0
  end.

Definition currentPriceLineTop (i : ChartInputs T) (centerAnchor : option T)
  : T :=
  calculateLinePosition (viewport i centerAnchor) (currentPrice i).

(** [entryPrice ? calculateLinePosition(entryPrice) : 0] *)
Definition entryPriceLineTop (i : ChartInputs T) (centerAnchor : option T)
  : T :=
  if truthy (entryPrice i)
  then calculateLinePosition (viewport i centerAnchor) (entryPrice i)
  else ofZ 0.

(** The five custom y-axis labels, [Array.from({ length: 5 }, (_, i) => ...)]:
    the value printed by label [i] and its [top]. *)
Definition yAxisLabels (v : Viewport T) : list (T * T) :=
  map (fun i : Z =>
         let value := yMin v + (range v * ofZ i) / ofZ 4 in
         let sectionHeight := (chartHeight - ofZ 40) / ofZ 4 in
         let yPosition := ofZ 20 + (ofZ 4 - ofZ i) * sectionHeight in
         (value, yPosition))
      [0; 1; 2; 3; 4]%Z.

(** The gridlines of the chart: each tick of [pnlTicks] with the [top] of
    its line. *)
Definition pnlGridLines (i : ChartInputs T) (centerAnchor : option T)
  : list (PnlTick T * T) :=
  map (fun tick =>
         (tick, calculateLinePosition (viewport i centerAnchor) (price tick)))
      (pnlTicks (anchor i centerAnchor) (displayLeverage i) (Some (ofZ 1))).

(** The style of the warning band, from the liquidation line to the edge of
    the plot area on the losing side. *)
Definition warningBand (i : ChartInputs T) (centerAnchor : option T)
  : Band T :=
  let liquidationLineTop := liquidationLineTop i centerAnchor in
  {| bandTop :=
       match side i with
       | long => liquidationLineTop
       | short => ofZ 20
       end;
     bandHeight :=
       match side i with
       | long => Math_max (ofZ 0) (chartHeight - ofZ 20 - liquidationLineTop)
       | short => Math_max (ofZ 0) (liquidationLineTop - ofZ 20)
       end |}.

(** [showLiquidation && liqToShow]: whether the band, the line and the label
    of the liquidation price are rendered. *)
Definition liquidationShown (showLiquidation : bool) (i : ChartInputs T)
  : bool :=
  showLiquidation &&
  match liqToShow i with
  | JsNum x => truthy x
  | _ => false
  end.

End Overlays.

(** ** Rounding *)

Class JsRound (T : Type) : Type := {
  Math_round : T -> T
}.

(** [Math.round] is the integer nearest to its argument, a tie going up:
    the floor of [x + 1/2]. *)
#[export] Instance QRound : JsRound Q := {
  Math_round := fun x => inject_Z (Qfloor (x + (1 # 2)))
}.

(** On a double the rounding is exact; a result of zero keeps the sign of the
    argument. *)
Definition f64_round (x : Binary64.f64) : Binary64.f64 :=
  match x with
  | S754_finite s m e =>
      if (0 <=? e)%Z then x
      else
        let d := (2 ^ (- e))%Z in
        let n := if s then Z.neg m else Z.pos m in
        let q := ((2 * n + d) / (2 * d))%Z in
        if (q =? 0)%Z then S754_zero s else Binary64.of_Z q
  | _ => x
  end.

#[export] Instance F64Round : JsRound Binary64.f64 := {
  Math_round := f64_round
}.

(** ** Market data ([src/utils/backendApi.ts]) *)

Module Backend.

Import String.
Local Open Scope string_scope.

(** The outcome of a call that returns or throws. *)
Inductive Result (A : Type) : Type :=
| Ok : A -> Result A
| Throw : string -> Result A.

Arguments Throw {A}.

(** The keys of [SUPPORTED_TOKENS]. *)
Inductive SupportedToken : Type := sol | eth | btc.

Definition token_eqb (a b : SupportedToken) : bool :=
  match a, b with
  | sol, sol | eth, eth | btc, btc => true
  | _, _ => false
  end.

Definition tokenKey (token : SupportedToken) : string :=
  match token with sol => "sol" | eth => "eth" | btc => "btc" end.

Definition SUPPORTED_TOKENS (token : SupportedToken) : string :=
  match token with sol => "solana" | eth => "ethereum" | btc => "bitcoin" end.

(** [token.toUpperCase()] on the three keys. *)
Definition toUpperCase (token : SupportedToken) : string :=
  match token with sol => "SOL" | eth => "ETH" | btc => "BTC" end.

Inductive SupportedTimeframe : Type :=
| tf_1m | tf_2m | tf_5m | tf_10m | tf_1h | tf_4h | tf_1d.

(** An entry of [BackendMarketResponse.data]; the fields that no function
    reads ([high24h], [low24h], [funding], [openInterest]) are left out. *)
Record Market (T : Type) : Type := {
  symbol : string;
  price : T;
  change24h : T;
  volume24h : option T
}.

Record BackendMarketResponse (T : Type) : Type := {
  success : bool;
  data : option (list (Market T));
  timestamp : string
}.

(** [TokenPrice]; its [symbol] field is [tp_symbol] here. *)
Record TokenPrice (T : Type) : Type := {
  id : string;
  tp_symbol : string;
  name : string;
  current_price : T;
  price_change_24h : T;
  price_change_percentage_24h : T;
  market_cap : T;
  total_volume : T;
  last_updated : string
}.

Record ChartDataPoint (T : Type) : Type := {
  value : T;
  point_timestamp : option T
}.

Record PriceChange (T : Type) : Type := {
  change : T;
  changePercent : T
}.

(** [Partial<Record<SupportedToken, TokenPrice>>] *)
Definition TokenPrices (T : Type) : Type :=
  SupportedToken -> option (TokenPrice T).

Definition noPrices {T : Type} : TokenPrices T := fun _ => None.

Definition setPrice {T : Type} (result : TokenPrices T)
           (token : SupportedToken) (p : TokenPrice T) : TokenPrices T :=
  fun k => if token_eqb k token then Some p else result k.

Section MarketData.

Context {T : Type} `{JsNumber T} `{JsRound T}.
Local Open Scope js_scope.

(** [x || 0] on a number *)
Definition orZero (x : T) : T := if truthy x then x else ofZ 0.

(** [x || 0] on an optional number *)
Definition optOrZero (x : option T) : T :=
  match x with Some v => orZero v | None => ofZ 0 end.

Definition marketKey (token : SupportedToken) : string :=
  (toUpperCase token ++ "-PERP")%string.

Definition findMarket (markets : list (Market T)) (token : SupportedToken)
  : option (Market T) :=
  find (fun market => String.eqb (symbol market) (marketKey token)) markets.

Definition tokenPriceOf (token : SupportedToken) (marketData : Market T)
           (stamp : string) : TokenPrice T :=
  {| id := SUPPORTED_TOKENS token;
     tp_symbol := toUpperCase token;
     name := match token with
             | sol => "Solana"
             | eth => "Ethereum"
             | btc => "Bitcoin"
             end;
     current_price := price marketData;
     price_change_24h := orZero (change24h marketData);
     price_change_percentage_24h := orZero (change24h marketData);
     market_cap := ofZ 0;
     total_volume := optOrZero (volume24h marketData);
     last_updated := stamp |}.

(** [response] is what [apiClient.get("/api/markets")] returned or threw;
    [tokens] is the optional argument. *)
Definition fetchTokenPrices (tokens : option (list SupportedToken))
           (response : Result (BackendMarketResponse T))
  : Result (TokenPrices T) :=
  let tokens := match tokens with Some l => l | None => [sol; eth; btc] end in
  match response with
  | Throw error => Throw error
  | Ok data =>
      match success data, Backend.data data with
      | true, Some markets =>
          Ok (fold_left
                (fun result token =>
                   match findMarket markets token with
                   | Some marketData =>
                       setPrice result token
                                (tokenPriceOf token marketData
                                              (timestamp data))
                   | None => result
                   end)
                tokens noPrices)
      | _, _ => Throw "Invalid response format from backend"
      end
  end.

Definition fetchSingleTokenPrice (token : SupportedToken)
           (response : Result (BackendMarketResponse T))
  : Result (TokenPrice T) :=
  match fetchTokenPrices (Some [token]) response with
  | Throw error => Throw error
  | Ok prices =>
      match prices token with
      | Some price => Ok price
      | None =>
          Throw ("No price data available for " ++ tokenKey token)%string
      end
  end.

(** The lookup of the timeframe, with its [|| 60000]. *)
Definition timeframeMs (timeframe : SupportedTimeframe) : T :=
  let found :=
    match timeframe with
    | tf_1m => ofZ 60000
    | tf_2m => ofZ 120000
    | tf_5m => ofZ 300000
    | tf_10m => ofZ 600000
    | tf_1h => ofZ 3600000
    | tf_4h => ofZ 14400000
    | tf_1d => ofZ 86400000
    end in
  if truthy found then found else ofZ 60000.

Definition maxVariation : T := dec 25 1000.

(** The iterations [i, i - 1, ..., 0] of the loop of [fetchHistoricalData];
    [random i] is the value [Math.random()] returns in iteration [i]. *)
Fixpoint mockPoints (currentPrice now step : T) (random : nat -> T)
         (i : nat) (previousPrice : T) : list (ChartDataPoint T) :=
  let timestamp := now - ofZ (Z.of_nat i) * step in
  match i with
  | O =>
      [ {| value := Math_round (currentPrice * ofZ 100) / ofZ 100;
           point_timestamp := Some timestamp |} ]
  | S i' =>
      let trendFactor := (ofZ 6 - ofZ (Z.of_nat i)) / ofZ 6 in
      let randomWalk :=
        (random i - dec 5 10) * maxVariation
        * (ofZ 1 - trendFactor * dec 5 10) in
      let trendTowardsCurrent :=
        (currentPrice - previousPrice) * trendFactor * dec 1 10 in
      let price := previousPrice * (ofZ 1 + randomWalk) + trendTowardsCurrent in
      let roundedPrice := Math_round (price * ofZ 100) / ofZ 100 in
      {| value := roundedPrice; point_timestamp := Some timestamp |}
        :: mockPoints currentPrice now step random i' roundedPrice
  end.

(** [now] is [Date.now()]. *)
Definition fetchHistoricalData (token : SupportedToken)
           (timeframe : option SupportedTimeframe)
           (response : Result (BackendMarketResponse T))
           (now : T) (random : nat -> T)
  : Result (list (ChartDataPoint T)) :=
  let timeframe := match timeframe with Some tf => tf | None => tf_1m end in
  match fetchTokenPrices (Some [token]) response with
  | Throw error => Throw error
  | Ok currentPrices =>
      let currentPrice :=
        match currentPrices token with
        | Some p => if truthy (current_price p) then current_price p
                    else ofZ 100
        | None => ofZ 100
        end in
      Ok (mockPoints currentPrice now (timeframeMs timeframe) random
                     6 currentPrice)
  end.

(** [data[k].value], for an index within the array. *)
Definition valueAt (data : list (ChartDataPoint T)) (k : nat) : T :=
  match nth_error data k with
  | Some point => value point
  | None => ofZ 0
  end.

Definition getCurrentPriceFromHistorical (data : list (ChartDataPoint T))
  : T :=
  if (0 <? List.length data)%nat
  then valueAt data (List.length data - 1)
  else ofZ 0.

Definition calculatePriceChange (data : list (ChartDataPoint T))
  : PriceChange T :=
  if (List.length data <? 2)%nat
  then {| change := ofZ 0; changePercent := ofZ 0 |}
  else
    let firstPrice := valueAt data 0 in
    let lastPrice := valueAt data (List.length data - 1) in
    let change := lastPrice - firstPrice in
    let changePercent := (change / firstPrice) * ofZ 100 in
    {| change := change; changePercent := changePercent |}.

(** The live price of the chart:
    [tokenPrices?.[selectedToken]?.current_price ||
     getCurrentPriceFromHistorical(data)]. *)
Definition chartCurrentPrice (tokenPrices : option (TokenPrices T))
           (selectedToken : SupportedToken)
           (data : list (ChartDataPoint T)) : T :=
  match tokenPrices with
  | Some prices =>
      match prices selectedToken with
      | Some p => if truthy (current_price p) then current_price p
                  else getCurrentPriceFromHistorical data
      | None => getCurrentPriceFromHistorical data
      end
  | None => getCurrentPriceFromHistorical data
  end.

End MarketData.

End Backend.

(** ** Avatar files ([src/utils/backendApi.ts]) *)

Module Avatar.

Import Ascii String.
Local Open Scope string_scope.

(** [s.split(sep)] for a separator of one character. *)
Fixpoint split (sep : ascii) (s : string) : list string :=
  match s with
  | EmptyString => [EmptyString]
  | String c rest =>
      if Ascii.eqb c sep then EmptyString :: split sep rest
      else
        match split sep rest with
        | head :: tail => String c head :: tail
        | [] => [String c EmptyString]
        end
  end.

(** [parts[parts.length - 1]], and [parts.pop()] of a non-empty array *)
Definition lastPart (parts : list string) : string :=
  List.last parts EmptyString.

Definition isDigit (c : ascii) : bool :=
  let n := nat_of_ascii c in (48 <=? n)%nat && (n <=? 57)%nat.

(** [[0-9a-f]] under the [i] flag *)
Definition isHex (c : ascii) : bool :=
  let n := nat_of_ascii c in
  isDigit c
  || ((97 <=? n)%nat && (n <=? 102)%nat)
  || ((65 <=? n)%nat && (n <=? 70)%nat).

(** A letter of the pattern under the [i] flag: itself or its upper case. *)
Definition isLetter (lower : ascii) (c : ascii) : bool :=
  Ascii.eqb c lower
  || (nat_of_ascii c =? nat_of_ascii lower - 32)%nat.

(** [[0-9a-f]{n}] at the head of [s]: the rest of [s] after it. *)
Fixpoint hexRun (n : nat) (s : string) : option string :=
  match n with
  | O => Some s
  | S n' =>
      match s with
      | String c rest => if isHex c then hexRun n' rest else None
      | EmptyString => None
      end
  end.

Definition expect (ok : ascii -> bool) (s : option string) : option string :=
  match s with
  | Some (String c rest) => if ok c then Some rest else None
  | _ => None
  end.

Definition thenHex (n : nat) (s : option string) : option string :=
  match s with Some rest => hexRun n rest | None => None end.

(** [/^[0-9a-f]{8}-[0-9a-f]{4}-[0-9a-f]{4}-[0-9a-f]{4}-[0-9a-f]{12}\.webp$/i]
    tested on [filename] *)
Definition filenameRegex_test (filename : string) : bool :=
  let dash := expect (Ascii.eqb "-") in
  let s := hexRun 8 filename in
  let s := thenHex 4 (dash s) in
  let s := thenHex 4 (dash s) in
  let s := thenHex 4 (dash s) in
  let s := thenHex 12 (dash s) in
  let s := expect (Ascii.eqb ".") s in
  let s := expect (isLetter "w") s in
  let s := expect (isLetter "e") s in
  let s := expect (isLetter "b") s in
  let s := expect (isLetter "p") s in
  match s with
  | Some EmptyString => true
  | _ => false
  end.

(** The path of the DELETE request that [deleteAvatar] sends, [None] when it
    returns without a request.  A failure of the request is caught inside,
    and the promise never rejects. *)
Definition deleteAvatar (avatarUrl : string) : option string :=
  let urlParts := split "/" avatarUrl in
  let filename := lastPart urlParts in
  if String.eqb filename EmptyString || String.eqb filename avatarUrl
  then None
  else if negb (filenameRegex_test filename) then None
  else Some ("/api/upload/avatar/" ++ filename).

(** [fileName.split('.').pop() || 'jpg'] of [uploadAvatar] *)
Definition fileExt (fileName : string) : string :=
  let popped := lastPart (split "." fileName) in
  if String.eqb popped EmptyString then "jpg" else popped.

End Avatar.

(** ** Waiting for the signature ([src/components/SolanaAuthScreen.tsx]) *)

Module Auth.

Import String.

Inductive AuthStep : Type :=
| verifying | completed | signup_required | signing_message.

(** What [AsyncStorage.getItem("auth_signature")] does: it rejects, or
    resolves to [null] or to a string. *)
Inductive StorageRead : Type :=
| ReadRejects
| ReadNull
| ReadString (s : string).

(** What [poll] does, in order. *)
Inductive PollEvent : Type :=
| GetItem
| RemoveItem
| AuthenticateWithBackend (message signature : string)
| SetTimeout1000
| SetAuthStep (step : AuthStep)
| ToastTimeout.

Definition maxAttempts : nat := 30.

Section Poll.

(** [reads k] is the outcome of the read made when [attempts] is [k];
    [removeRejects] says whether [removeItem] rejects. *)
Variable reads : nat -> StorageRead.
Variable removeRejects : bool.
Variable message : string.

(** One run of [poll] and the runs it schedules.  [fuel] bounds the number
    of runs that are followed. *)
Fixpoint poll (fuel : nat) (attempts : nat) : list PollEvent :=
  match fuel with
  | O => []
  | S fuel' =>
      GetItem ::
      match reads attempts with
      | ReadRejects => [SetAuthStep verifying]
      | ReadString (String c rest as storedSignature) =>
          RemoveItem ::
          (if removeRejects then [SetAuthStep verifying]
           else [AuthenticateWithBackend message storedSignature])
      | _ =>
          let attempts := S attempts in
          if (attempts <? maxAttempts)%nat
          then SetTimeout1000 :: poll fuel' attempts
          else [SetAuthStep verifying; ToastTimeout]
      end
  end.

Definition pollForAuthSignature (fuel : nat) : list PollEvent :=
  poll fuel 0.

End Poll.

Definition isGetItem (e : PollEvent) : bool :=
  match e with GetItem => true | _ => false end.

Definition isSetTimeout (e : PollEvent) : bool :=
  match e with SetTimeout1000 => true | _ => false end.

Definition isAuthenticate (e : PollEvent) : bool :=
  match e with AuthenticateWithBackend _ _ => true | _ => false end.

(** The read finds no signature: [null] or the empty string. *)
Definition noSignature (r : StorageRead) : Prop :=
  r = ReadNull \/ r = ReadString EmptyString.

End Auth.

(** ** Definitions used by the further statements *)

Section FurtherDefinitions.

Local Open Scope Q_scope.

(** The price around which [fetchHistoricalData] generates its series: the
    price of the first market with the token's key, and 100 when there is
    none or when that price is 0. *)
Definition historicalBase (markets : list (Backend.Market Q))
           (token : Backend.SupportedToken) : Q :=
  match Backend.findMarket markets token with
  | Some m => if Qeq_bool (Backend.price m) 0 then 100 else Backend.price m
  | None => 100
  end.

(** How many events of a trace satisfy [f]. *)
Definition countEvents (f : Auth.PollEvent -> bool)
           (trace : list Auth.PollEvent) : nat :=
  List.length (filter f trace).

(** [k] rounds that read nothing, each followed by a wait of a second. *)
Definition emptyRounds (k : nat) : list Auth.PollEvent :=
  concat (repeat [Auth.GetItem; Auth.SetTimeout1000] k).

(** The offsets [6, 5, ..., 0] of the seven generated points. *)
Definition historicalOffsets : list Z := [6; 5; 4; 3; 2; 1; 0]%Z.

End FurtherDefinitions.

(** ** Facts of rational arithmetic used below *)

Section QFacts.

Local Open Scope Q_scope.

Lemma Qmax_one_lower (l : Q) : 1 <= Qmax 1 l.
Proof. apply Q.le_max_l. Qed.

Lemma Qmax_one_clamped (l : Q) : 1 <= l -> Qmax 1 l == l.
Proof. apply Q.max_r. Qed.

Lemma Qmax_one_below (l : Q) : l <= 1 -> Qmax 1 l == 1.
Proof. apply Q.max_l. Qed.

Lemma Qinv_antitone (a b : Q) : 0 < a -> a <= b -> / b <= / a.
Proof.
  intros Ha Hab.
  destruct (Qle_lt_or_eq _ _ Hab) as [Hlt | Heq].
  - assert (Hb : 0 < b) by lra.
    apply Qlt_le_weak, (proj1 (Qinv_lt_contravar a b Ha Hb)), Hlt.
  - rewrite Heq. apply Qle_refl.
Qed.

Lemma Qinv_strict_antitone (a b : Q) : 0 < a -> a < b -> / b < / a.
Proof.
  intros Ha Hab. assert (Hb : 0 < b) by lra.
  apply (proj1 (Qinv_lt_contravar a b Ha Hb)), Hab.
Qed.

Lemma Qle_bool_false (x y : Q) : Qle_bool x y = false <-> y < x.
Proof.
  split.
  - intros Hb. apply Qnot_le_lt. intros Hle.
    apply Qle_bool_iff in Hle. congruence.
  - intros Hlt. destruct (Qle_bool x y) eqn:Hb; trivial.
    apply Qle_bool_iff in Hb. lra.
Qed.

End QFacts.

(** ** The viewport *)

Section ViewportFacts.

Local Open Scope Q_scope.

Lemma viewportFor_unfold (anchor leverage pnlSpan minBandBps : Q) :
  viewportFor anchor leverage (Some pnlSpan) (Some minBandBps) =
  {| yMin := anchor - halfSpan_spec anchor leverage pnlSpan minBandBps;
     yMax := anchor + halfSpan_spec anchor leverage pnlSpan minBandBps |}.
Proof. reflexivity. Qed.

Lemma halfSpan_pos (anchor leverage pnlSpan minBandBps : Q) :
  0 < anchor -> 0 < pnlSpan \/ 0 < minBandBps ->
  0 < halfSpan_spec anchor leverage pnlSpan minBandBps.
Proof.
  intros Ha Hcfg. unfold halfSpan_spec.
  destruct Hcfg as [Hs | Hb].
  - eapply Qlt_le_trans; [ | apply Q.le_max_l ].
    apply Qmult_lt_0_compat; trivial.
    apply Qlt_shift_div_l.
    + pose proof (Qmax_one_lower leverage). lra.
    + lra.
  - eapply Qlt_le_trans; [ | apply Q.le_max_r ].
    apply Qmult_lt_0_compat; trivial.
    apply Qlt_shift_div_l; lra.
Qed.

Lemma halfSpan_scaled_neg (anchor pnlSpan w : Q) :
  0 < anchor -> pnlSpan < 0 -> 0 < w -> anchor * (pnlSpan * w) < 0.
Proof.
  intros Ha Hs Hw.
  assert (Hpos : 0 < anchor * (- pnlSpan * w)).
  { apply Qmult_lt_0_compat; trivial.
    apply Qmult_lt_0_compat; trivial. lra. }
  setoid_replace (anchor * (pnlSpan * w))
    with (- (anchor * (- pnlSpan * w))) by ring.
  lra.
Qed.

Lemma halfSpan_antitone (anchor l1 l2 pnlSpan minBandBps : Q) :
  0 < anchor -> 0 < pnlSpan \/ 0 < minBandBps -> l1 <= l2 ->
  halfSpan_spec anchor l2 pnlSpan minBandBps <=
  halfSpan_spec anchor l1 pnlSpan minBandBps.
Proof.
  intros Ha Hcfg Hl. unfold halfSpan_spec.
  assert (Hw1 : 0 < / Qmax 1 l1).
  { apply Qinv_lt_0_compat. pose proof (Qmax_one_lower l1). lra. }
  assert (Hw2 : 0 < / Qmax 1 l2).
  { apply Qinv_lt_0_compat. pose proof (Qmax_one_lower l2). lra. }
  destruct (Qlt_le_dec pnlSpan 0) as [Hneg | Hnonneg].
  - (* a negative span is always under the floor *)
    assert (Hb : 0 < minBandBps) by (destruct Hcfg; lra).
    assert (Hfloor : 0 < anchor * (minBandBps / 10000)).
    { apply Qmult_lt_0_compat; trivial. apply Qlt_shift_div_l; lra. }
    pose proof (halfSpan_scaled_neg Ha Hneg Hw1) as H1.
    pose proof (halfSpan_scaled_neg Ha Hneg Hw2) as H2.
    unfold Qdiv at 1 3.
    rewrite !Q.max_r by lra. apply Qle_refl.
  - apply Q.max_le_compat_r.
    assert (Hinv : / Qmax 1 l2 <= / Qmax 1 l1).
    { apply Qinv_antitone.
      - pose proof (Qmax_one_lower l1). lra.
      - apply Q.max_le_compat_l, Hl. }
    unfold Qdiv.
    apply Qmult_le_l; trivial.
    rewrite (Qmult_comm pnlSpan), (Qmult_comm pnlSpan).
    apply Qmult_le_compat_r; trivial.
Qed.

(** With the default configuration the half-span is below the anchor
    exactly when the leverage is above [pnlSpan = 1.2]. *)
Lemma halfSpan_default_below_anchor (anchor leverage : Q) :
  0 < anchor -> 1 <= leverage ->
  (halfSpan_spec anchor leverage (12 # 10) 4 < anchor <->
   12 # 10 < leverage).
Proof.
  intros Ha Hl. unfold halfSpan_spec.
  assert (HM : Qmax 1 leverage == leverage) by (apply Qmax_one_clamped, Hl).
  rewrite HM.
  assert (Hpos : 0 < leverage) by lra.
  assert (Hfloor : anchor * (4 / 10000) < anchor).
  { setoid_replace (4 / 10000) with (1 # 2500) by reflexivity. lra. }
  split.
  - intros Hlt.
    destruct (Qlt_le_dec (12 # 10) leverage) as [ | Hle ]; trivial.
    exfalso.
    assert (Hge : anchor <= anchor * ((12 # 10) / leverage)).
    { rewrite <- (Qmult_1_r anchor) at 1.
      apply Qmult_le_l; trivial.
      apply Qle_shift_div_l; lra. }
    pose proof (Q.le_max_l (anchor * ((12 # 10) / leverage))
                           (anchor * (4 / 10000))).
    lra.
  - intros Hlev.
    apply Q.max_lub_lt; trivial.
    rewrite <- (Qmult_1_r anchor) at 2.
    apply Qmult_lt_l; trivial.
    apply Qlt_shift_div_r; lra.
Qed.

End ViewportFacts.

(** ** Statements about [viewportFor] *)

Section ViewportClaims.

Local Open Scope Q_scope.

(** C3.  For every anchor, leverage and configuration, [viewportFor]
    returns exactly [anchor - half] and [anchor + half], where [half] is the
    larger of [anchor * (pnlSpan / max(1, leverage))] and
    [anchor * (minBandBps / 10000)]; the preconditions [anchor > 0] and
    [leverage >= 1] are not needed for this.  At anchor 100, leverage 10,
    pnlSpan 1.2 and minBandBps 4 the viewport is 88 to 112, in exact
    arithmetic and in binary64, with the configuration passed or left to
    its defaults. *)
Theorem C3_viewportFor_formula :
  (forall anchor leverage pnlSpan minBandBps : Q,
      let half := Qmax (anchor * (pnlSpan / Qmax 1 leverage))
                       (anchor * (minBandBps / 10000)) in
      viewportFor anchor leverage (Some pnlSpan) (Some minBandBps) =
      {| yMin := anchor - half; yMax := anchor + half |}) /\
  (let v := viewportFor (T := Q) 100 10 (Some (12 # 10)) (Some 4) in
   halfSpan_spec 100 10 (12 # 10) 4 == 12 /\
   yMin v == 88 /\ yMax v == 112) /\
  (let lit := ofZ (T := Binary64.f64) in
   viewportFor (lit 100%Z) (lit 10%Z) (Some (dec 12 10)) (Some (lit 4%Z)) =
   {| yMin := lit 88%Z; yMax := lit 112%Z |} /\
   viewportFor (lit 100%Z) (lit 10%Z) None None =
   {| yMin := lit 88%Z; yMax := lit 112%Z |}).
Proof.
  split; [ | split ].
  - intros. reflexivity.
  - cbv zeta. repeat split; vm_compute; reflexivity.
  - cbv zeta. split; vm_compute; reflexivity.
Qed.







End ViewportClaims.

(** ** Statements about [isolatedLiq] *)

Section LiquidationClaims.

Local Open Scope Q_scope.

Lemma isolatedLiq_unfold (entry leverage : Q) (side : Side) (mmr : Q) :
  isolatedLiq entry leverage side mmr =
  isolatedLiq_spec entry leverage side mmr.
Proof. destruct side; reflexivity. Qed.

(** Above the clamp the estimate is the formula on the leverage itself. *)
Lemma isolatedLiq_unclamped (entry leverage : Q) (side : Side) (mmr : Q) :
  1 <= leverage ->
  isolatedLiq entry leverage side mmr ==
  match side with
  | long => entry * (1 - 1 / leverage) / (1 - mmr)
  | short => entry * (1 + 1 / leverage) / (1 + mmr)
  end.
Proof.
  intros Hl. rewrite isolatedLiq_unfold. unfold isolatedLiq_spec.
  destruct side; rewrite (Qmax_one_clamped Hl); reflexivity.
Qed.

(** Below the clamp the leverage plays no part. *)
Lemma isolatedLiq_clamped (entry leverage : Q) (side : Side) (mmr : Q) :
  leverage <= 1 ->
  isolatedLiq entry leverage side mmr == isolatedLiq entry 1 side mmr.
Proof.
  intros Hl. rewrite !isolatedLiq_unfold. unfold isolatedLiq_spec.
  destruct side; rewrite (Qmax_one_below Hl); reflexivity.
Qed.

Lemma isolatedLiq_long_strict (entry mmr l1 l2 : Q) :
  0 < entry -> mmr < 1 -> 1 <= l1 -> l1 < l2 ->
  isolatedLiq entry l1 long mmr < isolatedLiq entry l2 long mmr.
Proof.
  intros He Hm Hl1 Hl12.
  rewrite !isolatedLiq_unclamped by lra.
  assert (Hinv : / l2 < / l1) by (apply Qinv_strict_antitone; lra).
  unfold Qdiv. apply Qmult_lt_compat_r.
  - apply Qinv_lt_0_compat. lra.
  - apply Qmult_lt_l; trivial. lra.
Qed.

Lemma isolatedLiq_short_strict (entry mmr l1 l2 : Q) :
  0 < entry -> -1 < mmr -> 1 <= l1 -> l1 < l2 ->
  isolatedLiq entry l2 short mmr < isolatedLiq entry l1 short mmr.
Proof.
  intros He Hm Hl1 Hl12.
  rewrite !isolatedLiq_unclamped by lra.
  assert (Hinv : / l2 < / l1) by (apply Qinv_strict_antitone; lra).
  unfold Qdiv. apply Qmult_lt_compat_r.
  - apply Qinv_lt_0_compat. lra.
  - apply Qmult_lt_l; trivial. lra.
Qed.

(** C4.  For every entry, leverage, side and mmr, [isolatedLiq] returns
    [entry * (1 - 1/L) / (1 - mmr)] for a long and
    [entry * (1 + 1/L) / (1 + mmr)] for a short, with
    [L = max(1, leverage)]; a leverage below 1 gives the value at
    leverage 1.  At entry 100, leverage 10, long, mmr 0.005 the estimate is
    18000/199, within 0.005 of 90.45, in exact arithmetic and in
    binary64. *)
Theorem C4_isolatedLiq_formula :
  (forall (entry leverage : Q) (side : Side) (mmr : Q),
      let L := Qmax 1 leverage in
      isolatedLiq entry leverage side mmr =
      match side with
      | long => entry * (1 - 1 / L) / (1 - mmr)
      | short => entry * (1 + 1 / L) / (1 + mmr)
      end) /\
  (isolatedLiq (T := Q) 100 (1 # 2) long (5 # 1000) ==
   isolatedLiq (T := Q) 100 1 long (5 # 1000) /\
   isolatedLiq (T := Q) 100 (1 # 2) short (5 # 1000) ==
   isolatedLiq (T := Q) 100 1 short (5 # 1000)) /\
  (let liq := isolatedLiq (T := Q) 100 10 long (5 # 1000) in
   liq == 100 * (1 - (1 # 10)) / (1 - (5 # 1000)) /\
   liq == 18000 # 199 /\
   (90445 # 1000) < liq /\ liq < (90455 # 1000)) /\
  (let liq := isolatedLiq (T := Binary64.f64)
                          (ofZ 100%Z) (ofZ 10%Z) long (dec 5 1000) in
   SFltb (dec 90445 1000) liq = true /\
   SFltb liq (dec 90455 1000) = true).
Proof.
  split; [ | split; [ | split ] ].
  - intros. apply isolatedLiq_unfold.
  - split; vm_compute; reflexivity.
  - cbv zeta. repeat split; vm_compute; reflexivity.
  - cbv zeta. split; vm_compute; reflexivity.
Qed.






End LiquidationClaims.

(** ** Statements about [pnlTicks] *)

Section GridClaims.

Local Open Scope Q_scope.

Lemma tick_price_lt (anchor w a b : Q) :
  0 < anchor -> 0 < w -> a < b ->
  anchor * (1 + a * 1 * w) < anchor * (1 + b * 1 * w).
Proof.
  intros Ha Hw Hab.
  apply (proj2 (Qmult_lt_l (1 + a * 1 * w) (1 + b * 1 * w) anchor Ha)).
  apply (proj2 (Qplus_lt_r (a * 1 * w) (b * 1 * w) 1)).
  apply Qmult_lt_compat_r; trivial. lra.
Qed.



End GridClaims.

(** ** Statements about the projection to pixels *)

Section ProjectionClaims.

Local Open Scope Q_scope.

Lemma plotArea_value : plotArea (T := Q) == 160.
Proof. reflexivity. Qed.

Lemma calculateLinePosition_unfold (v : Viewport Q) (p : Q) :
  calculateLinePosition v p ==
  20 + 160 * (1 - (p - yMin v) * / (yMax v - yMin v)).
Proof. reflexivity. Qed.



End ProjectionClaims.

(** ** Statements about the liquidation line of the component *)

Section GatingClaims.

Local Open Scope Q_scope.

(** C8.  Before a trade, whenever [1 / displayLeverage] is below the
    maintenance margin ratio, the gate is closed, [projectedLiq] is [null]
    and [liqToShow] is [undefined], whatever function stands in the place
    of [isolatedLiq]: the value shown is not a result of the estimator. *)
Theorem C8_gating_absent
        (estimate : Q -> Q -> Side -> Q -> Q) (i : ChartInputs Q) :
  isPostTrade i = false ->
  1 / displayLeverage i < DEFAULT_MMR ->
  gatingOk i = false /\
  projectedLiqWith estimate i = JsNull /\
  liqToShowWith estimate i = JsUndefined /\
  projectedLiq i = JsNull /\
  liqToShow i = JsUndefined /\
  liqToShow (T := Binary64.f64)
            {| isPostTrade := false; entryPrice := ofZ 0%Z;
               displayLeverageRaw := ofZ 300%Z; side := long;
               currentPrice := ofZ 100%Z;
               liquidationPrice := JsUndefined |} = JsUndefined.
Proof.
  intros Hpre Hgate.
  assert (Hclosed : gatingOk i = false) by (apply Qle_bool_false, Hgate).
  unfold liqToShow, projectedLiq, liqToShowWith, projectedLiqWith.
  rewrite Hpre, Hclosed. cbn [negb andb orUndefined].
  repeat split.
Qed.

Lemma C8_gating_absent_witness :
  liqToShow (T := Q)
            {| isPostTrade := false; entryPrice := 0;
               displayLeverageRaw := 300; side := long;
               currentPrice := 100; liquidationPrice := JsUndefined |} =
  JsUndefined.
Proof.
  apply (@C8_gating_absent isolatedLiq); [ reflexivity | ].
  vm_compute. reflexivity.
Defined.

End GatingClaims.

(** ** Statements about recentring *)

Section RecenterClaims.

Local Open Scope Q_scope.

Lemma recenterEffect_tracked (i : ChartInputs Q) (a : Q) :
  isPostTrade i = true ->
  recenterEffect i (Some a) =
  if Qle_bool (halfRange i a) 0 then None
  else if Qle_bool ((85 # 100) * halfRange i a) (Qabs (currentPrice i - a))
       then Some (currentPrice i) else None.
Proof.
  intros Hpost. unfold recenterEffect, halfRange, viewport, anchor.
  rewrite Hpost. reflexivity.
Qed.

Lemma halfRange_withPrice (i : ChartInputs Q) (a p : Q) :
  isPostTrade i = true -> halfRange (withPrice i p) a = halfRange i a.
Proof.
  intros Hpost. unfold halfRange, viewport, anchor. cbn [isPostTrade withPrice].
  rewrite Hpost. reflexivity.
Qed.

(** Inside the band the effect stores nothing. *)
Lemma recenterEffect_inside (i : ChartInputs Q) (a : Q) :
  isPostTrade i = true ->
  Qabs (currentPrice i - a) < (85 # 100) * halfRange i a ->
  recenterEffect i (Some a) = None.
Proof.
  intros Hpost Hin. rewrite recenterEffect_tracked by trivial.
  destruct (Qle_bool (halfRange i a) 0); trivial.
  apply Qle_bool_false in Hin. rewrite Hin. reflexivity.
Qed.

(** At or beyond 85% of the half-range it stores the current price. *)
Lemma recenterEffect_edge (i : ChartInputs Q) (a : Q) :
  isPostTrade i = true ->
  0 < halfRange i a ->
  (85 # 100) * halfRange i a <= Qabs (currentPrice i - a) ->
  recenterEffect i (Some a) = Some (currentPrice i).
Proof.
  intros Hpost Hhalf Hout. rewrite recenterEffect_tracked by trivial.
  apply Qle_bool_false in Hhalf. rewrite Hhalf.
  apply Qle_bool_iff in Hout. rewrite Hout. reflexivity.
Qed.

(** Once the anchor is the current price the effect is quiet, whatever the
    half-range is. *)
Lemma recenterEffect_centered (i : ChartInputs Q) :
  recenterEffect i (Some (currentPrice i)) = None.
Proof.
  destruct (isPostTrade i) eqn:Hpost.
  - rewrite recenterEffect_tracked by trivial.
    destruct (Qle_bool (halfRange i (currentPrice i)) 0) eqn:Hhalf; trivial.
    apply Qle_bool_false in Hhalf.
    assert (Hzero : Qabs (currentPrice i - currentPrice i) == 0).
    { setoid_replace (currentPrice i - currentPrice i) with 0 by ring.
      reflexivity. }
    assert (Hin : Qabs (currentPrice i - currentPrice i) <
                  (85 # 100) * halfRange i (currentPrice i))
      by (rewrite Hzero; lra).
    apply Qle_bool_false in Hin. rewrite Hin. reflexivity.
  - unfold recenterEffect. rewrite Hpost. reflexivity.
Qed.

Lemma tick_inside (fuel : nat) (i : ChartInputs Q) (a p : Q) :
  isPostTrade i = true ->
  Qabs (p - a) < (85 # 100) * halfRange i a ->
  tick fuel i (Some a) p = (O, Some a).
Proof.
  intros Hpost Hin. unfold tick. destruct fuel as [ | fuel ]; trivial.
  cbn [settle]. rewrite recenterEffect_inside; trivial.
  rewrite halfRange_withPrice by trivial. exact Hin.
Qed.

Lemma tick_edge (fuel : nat) (i : ChartInputs Q) (a p : Q) :
  isPostTrade i = true ->
  0 < halfRange i a ->
  (85 # 100) * halfRange i a <= Qabs (p - a) ->
  tick (S fuel) i (Some a) p = (1%nat, Some p).
Proof.
  intros Hpost Hhalf Hout. unfold tick. cbn [settle].
  rewrite recenterEffect_edge; trivial;
    try (rewrite halfRange_withPrice by trivial; trivial).
  cbn [currentPrice withPrice].
  destruct fuel as [ | fuel ]; trivial.
  cbn [settle].
  change p with (currentPrice (withPrice i p)) at 2.
  rewrite recenterEffect_centered. reflexivity.
Qed.

Lemma ticks_inside (fuel : nat) (i : ChartInputs Q) (a : Q) (ps : list Q) :
  isPostTrade i = true ->
  Forall (fun q => Qabs (q - a) < (85 # 100) * halfRange i a) ps ->
  ticks fuel i (Some a) ps = (O, Some a).
Proof.
  intros Hpost Hall. induction Hall as [ | q qs Hq _ IH ]; trivial.
  cbn [ticks]. rewrite tick_inside by trivial. rewrite IH. reflexivity.
Qed.

Lemma ticks_app (fuel : nat) (i : ChartInputs Q) (st : option Q)
      (ps qs : list Q) :
  ticks fuel i st (ps ++ qs) =
  let (n, st') := ticks fuel i st ps in
  let (m, st'') := ticks fuel i st' qs in
  (Nat.add n m, st'').
Proof.
  revert st. induction ps as [ | p ps IH ]; intros st.
  - cbn. destruct (ticks fuel i st qs). reflexivity.
  - cbn [app ticks]. destruct (tick fuel i st p) as [n st1].
    rewrite IH. destruct (ticks fuel i st1 ps) as [m st2].
    destruct (ticks fuel i st2 qs) as [k st3].
    rewrite Nat.add_assoc. reflexivity.
Qed.



(** After the jump the new anchor has its own band: the tick at 112 that
    follows the jump to 111 is inside it and stores nothing. *)
Example ticks_after_jump :
  ticks 5 (trackedAt (T := Q) 100 10) (Some 100)
        [101; 95; 110; 111; 112] = (1%nat, Some 111).
Proof. vm_compute. reflexivity. Qed.

(** When the position closes, the seeding effect clears the stored anchor
    and the rendered anchor is the live price. *)
Example untracked_mirrors_price :
  let closed : ChartInputs Q :=
    {| isPostTrade := false; entryPrice := 0; displayLeverageRaw := 10;
       side := long; currentPrice := 98; liquidationPrice := JsUndefined |} in
  seedEffect closed = None /\
  anchor closed (seedEffect closed) = 98 /\
  anchor closed (Some 105) = 98.
Proof. repeat split. Qed.

End RecenterClaims.

(** ** Further facts about the chart *)

Section ChartFacts.

Local Open Scope Q_scope.

Lemma displayLeverage_unfold (i : ChartInputs Q) :
  displayLeverage i = Qmax 1 (Qmin (displayLeverageRaw i) 500).
Proof. reflexivity. Qed.

Lemma displayLeverage_cases (i : ChartInputs Q) :
  (1 <= displayLeverage i /\ displayLeverage i <= 500) /\
  (1 <= displayLeverageRaw i <= 500 ->
   displayLeverage i == displayLeverageRaw i) /\
  (displayLeverageRaw i <= 1 -> displayLeverage i == 1) /\
  (500 <= displayLeverageRaw i -> displayLeverage i == 500).
Proof.
  rewrite displayLeverage_unfold. set (raw := displayLeverageRaw i).
  repeat split.
  - apply Q.le_max_l.
  - apply Q.max_lub; [ lra | apply Q.le_min_r ].
  - intros [Hlo Hhi]. rewrite (Q.min_l raw 500 Hhi). apply Q.max_r, Hlo.
  - intros Hlo. apply Q.max_l.
    eapply Qle_trans; [ apply Q.le_min_l | exact Hlo ].
  - intros Hhi. rewrite (Q.min_r raw 500 Hhi). apply Q.max_r. lra.
Qed.

Lemma displayLeverage_range (i : ChartInputs Q) :
  1 <= displayLeverage i <= 500.
Proof. apply (displayLeverage_cases i). Qed.

Lemma displayLeverage_le_200 (i : ChartInputs Q) :
  displayLeverage i <= 200 <-> displayLeverageRaw i <= 200.
Proof.
  rewrite displayLeverage_unfold. set (raw := displayLeverageRaw i).
  split.
  - intros Hle.
    assert (Hmin : Qmin raw 500 <= 200)
      by (eapply Qle_trans; [ apply Q.le_max_r | exact Hle ]).
    destruct (Q.min_spec raw 500) as [[_ Heq] | [_ Heq]];
      rewrite Heq in Hmin; lra.
  - intros Hraw. apply Q.max_lub; [ lra | ].
    eapply Qle_trans; [ apply Q.le_min_l | exact Hraw ].
Qed.

Lemma gatingOk_iff (i : ChartInputs Q) :
  gatingOk i = true <-> displayLeverage i <= 200.
Proof.
  pose proof (displayLeverage_range i) as [Hlo Hhi].
  unfold gatingOk. cbn [leb QNum].
  change (DEFAULT_MMR (T := Q)) with (5 # 1000).
  change (div (ofZ 1%Z) (displayLeverage i)) with (1 / displayLeverage i).
  set (L := displayLeverage i) in *. clearbody L.
  rewrite Qle_bool_iff.
  assert (HL : 0 < L) by lra.
  split.
  - intros Hgate.
    apply (Qmult_le_compat_r _ _ L) in Hgate; [ | lra ].
    rewrite (Qmult_comm (1 / L) L), Qmult_div_r in Hgate by lra.
    lra.
  - intros Hle. apply Qle_shift_div_l; lra.
Qed.

Lemma gatingOk_raw (i : ChartInputs Q) :
  gatingOk i = true <-> displayLeverageRaw i <= 200.
Proof. rewrite gatingOk_iff. apply displayLeverage_le_200. Qed.

Lemma viewport_unfold (i : ChartInputs Q) (st : option Q) :
  viewport i st =
  {| yMin := anchor i st
             - halfSpan_spec (anchor i st) (displayLeverage i) (12 # 10) 4;
     yMax := anchor i st
             + halfSpan_spec (anchor i st) (displayLeverage i) (12 # 10) 4 |}.
Proof. reflexivity. Qed.

(** Up to leverage 3000 the floor of 4 basis points is not reached. *)
Lemma halfSpan_component (a L : Q) :
  0 < a -> 1 <= L <= 500 ->
  halfSpan_spec a L (12 # 10) 4 == a * ((12 # 10) / L).
Proof.
  intros Ha [Hlo Hhi]. unfold halfSpan_spec.
  rewrite (Qmax_one_clamped Hlo).
  apply Q.max_l.
  apply (proj2 (Qmult_le_l (4 / 10000) ((12 # 10) / L) a Ha)).
  apply Qle_shift_div_l; [ lra | ].
  setoid_replace (4 / 10000) with (1 # 2500) by reflexivity. lra.
Qed.

(** The pixel of a price in a viewport [a - h, a + h]: the centre of the
    plot area, moved by 80 pixels per half-span. *)
Lemma linePosition_centered (a h p : Q) :
  ~ h == 0 ->
  calculateLinePosition {| yMin := a - h; yMax := a + h |} p ==
  100 - 80 * ((p - a) / h).
Proof.
  intros Hh. rewrite calculateLinePosition_unfold. cbn [yMin yMax].
  field. split; [ exact Hh | intros Hc; apply Hh; lra ].
Qed.

Lemma linePosition_component (i : ChartInputs Q) (st : option Q) (p : Q) :
  0 < anchor i st ->
  calculateLinePosition (viewport i st) p ==
  100 - 80 * ((p - anchor i st)
              / (anchor i st * ((12 # 10) / displayLeverage i))).
Proof.
  intros Ha. rewrite viewport_unfold.
  pose proof (halfSpan_pos (displayLeverage i) Ha
                (or_introl (eq_refl : 0 < 12 # 10))
              : 0 < halfSpan_spec (anchor i st) (displayLeverage i)
                                  (12 # 10) 4) as Hpos.
  rewrite linePosition_centered by lra.
  rewrite (halfSpan_component Ha (displayLeverage_range i)).
  reflexivity.
Qed.

Lemma halfRange_value (i : ChartInputs Q) (a : Q) :
  isPostTrade i = true ->
  halfRange i a == halfSpan_spec a (displayLeverage i) (12 # 10) 4.
Proof.
  intros Hpost. unfold halfRange. rewrite viewport_unfold.
  unfold anchor. rewrite Hpost. unfold range. cbn [yMin yMax sub div ofZ QNum].
  field.
Qed.

End ChartFacts.

(** ** Properties of the chart beyond the viewport and the estimate *)

Section ChartProperties.

Local Open Scope Q_scope.

(** X1.  Whatever leverage the slider or the position gives, the leverage
    the chart uses lies between 1 and 500; it is the given leverage when
    that lies in this range, 1 below it and 500 above it. *)
Theorem X1_displayLeverage_clamped (i : ChartInputs Q) :
  (1 <= displayLeverage i /\ displayLeverage i <= 500) /\
  (1 <= displayLeverageRaw i <= 500 ->
   displayLeverage i == displayLeverageRaw i) /\
  (displayLeverageRaw i <= 1 -> displayLeverage i == 1) /\
  (500 <= displayLeverageRaw i -> displayLeverage i == 500).
Proof. exact (displayLeverage_cases i). Qed.

Lemma X1_displayLeverage_clamped_witness :
  displayLeverage (trackedAt (T := Q) 100 10) == 10.
Proof.
  apply (X1_displayLeverage_clamped (trackedAt (T := Q) 100 10)).
  split; vm_compute; discriminate.
Defined.

(** X2.  Before a trade the liquidation estimate is computed exactly when
    the leverage given to the chart is at most 200: above it
    [1 / leverage] is under the 0.5% maintenance margin and the gate is
    closed. *)
Theorem X2_gatingOk_threshold (i : ChartInputs Q) :
  (gatingOk i = true <-> displayLeverageRaw i <= 200) /\
  (isPostTrade i = false ->
   (projectedLiq i <> JsNull <-> displayLeverageRaw i <= 200)).
Proof.
  pose proof (gatingOk_raw i) as Hgate.
  split; trivial.
  intros Hpre. unfold projectedLiq, projectedLiqWith. rewrite Hpre.
  cbn [negb andb]. rewrite <- Hgate.
  destruct (gatingOk i); split; intros Hx;
    try discriminate; try congruence.
Qed.

Lemma X2_gatingOk_threshold_witness :
  projectedLiq (T := Q)
               {| isPostTrade := false; entryPrice := 0;
                  displayLeverageRaw := 200; side := long;
                  currentPrice := 100; liquidationPrice := JsUndefined |}
  <> JsNull.
Proof.
  apply X2_gatingOk_threshold; [ reflexivity | ].
  vm_compute. discriminate.
Defined.

Lemma tick_line_position (i : ChartInputs Q) (st : option Q) (v : Q) :
  0 < anchor i st ->
  calculateLinePosition
    (viewport i st)
    (anchor i st * (1 + v * 1 / Qmax 1 (displayLeverage i))) ==
  100 - (2 # 3) * (v * 1 * 100).
Proof.
  intros Ha. rewrite linePosition_component by trivial.
  pose proof (displayLeverage_range i) as [Hlo Hhi].
  rewrite (Qmax_one_clamped Hlo).
  field. split; lra.
Qed.



Lemma label_position (v : Viewport Q) (k : Z) :
  yMin v < yMax v ->
  calculateLinePosition v (yMin v + (yMax v - yMin v) * inject_Z k / 4) ==
  20 + (4 - inject_Z k) * ((200 - 40) / 4).
Proof.
  intros Hv. rewrite calculateLinePosition_unfold.
  field. lra.
Qed.





End ChartProperties.

(** ** The projected liquidation line *)

Section ProjectedLiquidation.

Local Open Scope Q_scope.

(** The distance from the price to the estimate at the default maintenance
    margin, for a leverage that passes the gate. *)
Lemma isolatedLiq_gap_long (cp L : Q) :
  0 < cp -> 1 <= L <= 200 ->
  - (cp * ((12 # 10) / L)) < isolatedLiq cp L long (5 # 1000) - cp /\
  isolatedLiq cp L long (5 # 1000) - cp <= 0.
Proof.
  intros Hcp [Hlo Hhi].
  rewrite isolatedLiq_unclamped by trivial.
  assert (Hu : / 200 <= / L) by (apply Qinv_antitone; lra).
  assert (Hupos : 0 < / L) by (apply Qinv_lt_0_compat; lra).
  assert (Hw : cp * (1 # 200) <= cp * / L)
    by (apply (proj2 (Qmult_le_l (1 # 200) (/ L) cp Hcp)); exact Hu).
  assert (Hwpos : 0 < cp * / L) by (apply Qmult_lt_0_compat; trivial).
  unfold Qdiv.
  setoid_replace (/ (1 - (5 # 1000))) with (200 # 199) by reflexivity.
  split; lra.
Qed.

Lemma isolatedLiq_gap_short (cp L : Q) :
  0 < cp -> 1 <= L <= 200 ->
  0 <= isolatedLiq cp L short (5 # 1000) - cp /\
  isolatedLiq cp L short (5 # 1000) - cp < cp * ((12 # 10) / L).
Proof.
  intros Hcp [Hlo Hhi].
  rewrite isolatedLiq_unclamped by trivial.
  assert (Hu : / 200 <= / L) by (apply Qinv_antitone; lra).
  assert (Hupos : 0 < / L) by (apply Qinv_lt_0_compat; lra).
  assert (Hw : cp * (1 # 200) <= cp * / L)
    by (apply (proj2 (Qmult_le_l (1 # 200) (/ L) cp Hcp)); exact Hu).
  assert (Hwpos : 0 < cp * / L) by (apply Qmult_lt_0_compat; trivial).
  unfold Qdiv.
  setoid_replace (/ (1 + (5 # 1000))) with (200 # 201) by reflexivity.
  split; lra.
Qed.

(** What [liqToShow] is before a trade when it is a number. *)
Lemma liqToShow_pre_number (i : ChartInputs Q) (x : Q) :
  isPostTrade i = false ->
  liqToShow i = JsNum x ->
  gatingOk i = true /\
  x = isolatedLiq (currentPrice i) (displayLeverage i) (side i) (5 # 1000) /\
  ~ x == 0.
Proof.
  intros Hpre. unfold liqToShow, liqToShowWith, projectedLiqWith.
  rewrite Hpre. cbn [negb andb].
  destruct (gatingOk i); cbn [orUndefined]; [ | discriminate ].
  destruct (truthy _) eqn:Htruthy; [ | discriminate ].
  intros Heq. injection Heq as Heq. subst x.
  repeat split.
  intros Hzero.
  match type of Htruthy with
  | truthy ?X = true =>
      assert (Hb : Qeq_bool X 0 = true)
        by (apply Qeq_bool_iff; exact Hzero);
      change (negb (Qeq_bool X 0) = true) in Htruthy;
      rewrite Hb in Htruthy
  end.
  discriminate.
Qed.

Lemma liquidationLineTop_number (i : ChartInputs Q) (st : option Q) (x : Q) :
  liqToShow i = JsNum x -> ~ x == 0 ->
  liquidationLineTop i st = calculateLinePosition (viewport i st) x.
Proof.
  intros Hshow Hx. unfold liquidationLineTop. rewrite Hshow.
  cbn [truthy QNum].
  destruct (Qeq_bool x 0) eqn:Hzero; trivial.
  apply Qeq_bool_iff in Hzero. contradiction.
Qed.

(** The row of the projected liquidation line, for both sides. *)
Lemma projected_line_row (i : ChartInputs Q) (st : option Q) (x : Q) :
  isPostTrade i = false ->
  0 < currentPrice i ->
  liqToShow i = JsNum x ->
  let v := viewport i st in
  (yMin v < x /\ x < yMax v) /\
  match side i with
  | long => 100 <= liquidationLineTop i st /\ liquidationLineTop i st < 180
  | short => 20 < liquidationLineTop i st /\ liquidationLineTop i st <= 100
  end.
Proof.
  intros Hpre Hcp Hshow v.
  destruct (@liqToShow_pre_number i x Hpre Hshow) as (Hgate & Hx & Hnz).
  apply gatingOk_iff in Hgate.
  pose proof (displayLeverage_range i) as [Hlo Hhi].
  assert (Hanchor : anchor i st = currentPrice i)
    by (unfold anchor; rewrite Hpre; reflexivity).
  assert (Ha : 0 < anchor i st) by (rewrite Hanchor; exact Hcp).
  rewrite (@liquidationLineTop_number i st x Hshow Hnz).
  subst v. rewrite viewport_unfold. cbn [yMin yMax].
  rewrite <- viewport_unfold.
  assert (Hrow : calculateLinePosition (viewport i st) x ==
                 100 - 80 * ((x - currentPrice i)
                             / (currentPrice i
                                * ((12 # 10) / displayLeverage i))))
    by (rewrite linePosition_component by trivial;
        rewrite Hanchor; reflexivity).
  assert (Hhalf : halfSpan_spec (anchor i st) (displayLeverage i)
                                (12 # 10) 4 ==
                  currentPrice i * ((12 # 10) / displayLeverage i))
    by (rewrite (halfSpan_component Ha (conj Hlo Hhi));
        rewrite Hanchor; reflexivity).
  rewrite Hanchor in *. clear Hanchor Ha.
  set (top := calculateLinePosition (viewport i st) x) in *.
  set (half := halfSpan_spec (currentPrice i) (displayLeverage i)
                             (12 # 10) 4) in *.
  clearbody top half.
  set (cp := currentPrice i) in *.
  set (L := displayLeverage i) in *.
  assert (Hh : 0 < cp * ((12 # 10) / L)).
  { apply Qmult_lt_0_compat; trivial. apply Qlt_shift_div_l; lra. }
  destruct (side i) eqn:Hside; subst x.
  - destruct (@isolatedLiq_gap_long cp L Hcp (conj Hlo Hgate)) as [Hlow Hup].
    set (d := isolatedLiq cp L long (5 # 1000) - cp) in *.
    assert (Hr1 : -1 < d / (cp * ((12 # 10) / L)))
      by (apply Qlt_shift_div_l; lra).
    assert (Hr2 : d / (cp * ((12 # 10) / L)) <= 0)
      by (apply Qle_shift_div_r; lra).
    unfold d in *. repeat split; lra.
  - destruct (@isolatedLiq_gap_short cp L Hcp (conj Hlo Hgate)) as [Hlow Hup].
    set (d := isolatedLiq cp L short (5 # 1000) - cp) in *.
    assert (Hr1 : 0 <= d / (cp * ((12 # 10) / L)))
      by (apply Qle_shift_div_l; lra).
    assert (Hr2 : d / (cp * ((12 # 10) / L)) < 1)
      by (apply Qlt_shift_div_r; lra).
    unfold d in *. repeat split; lra.
Qed.





End ProjectedLiquidation.

(** ** When the projected estimate is shown *)

Section ProjectedShown.

Local Open Scope Q_scope.

Lemma displayLeverage_above_one (i : ChartInputs Q) :
  1 < displayLeverageRaw i -> 1 < displayLeverage i.
Proof.
  intros Hraw. rewrite displayLeverage_unfold.
  eapply Qlt_le_trans; [ | apply Q.le_max_r ].
  apply Q.min_glb_lt; lra.
Qed.

Lemma isolatedLiq_long_at_one (cp L m : Q) :
  L == 1 -> isolatedLiq cp L long m == 0.
Proof.
  intros HL. rewrite isolatedLiq_unclamped by lra.
  rewrite HL. unfold Qdiv.
  setoid_replace (/ 1) with 1 by reflexivity. ring.
Qed.

Lemma truthy_nonzero (x : Q) : ~ x == 0 -> truthy x = true.
Proof.
  intros Hx. cbn [truthy QNum].
  destruct (Qeq_bool x 0) eqn:Hzero; trivial.
  apply Qeq_bool_iff in Hzero. contradiction.
Qed.



End ProjectedShown.

(** ** Invariants of recentring *)

Section RecenterInvariants.

Local Open Scope Q_scope.

Lemma halfRange_pos (i : ChartInputs Q) (a : Q) :
  isPostTrade i = true -> 0 < a -> 0 < halfRange i a.
Proof.
  intros Hpost Ha. rewrite (@halfRange_value i a Hpost).
  apply halfSpan_pos; [ exact Ha | left; reflexivity ].
Qed.

Lemma halfRange_nonpos (i : ChartInputs Q) (a : Q) :
  isPostTrade i = true -> a <= 0 -> halfRange i a <= 0.
Proof.
  intros Hpost Ha. rewrite (@halfRange_value i a Hpost).
  unfold halfSpan_spec.
  assert (Hw : 0 < (12 # 10) / Qmax 1 (displayLeverage i)).
  { apply Qlt_shift_div_l; [ | lra ].
    pose proof (Qmax_one_lower (displayLeverage i)). lra. }
  set (w := (12 # 10) / Qmax 1 (displayLeverage i)) in *. clearbody w.
  assert (H1 : a * w <= 0).
  { setoid_replace (a * w) with (- (- a * w)) by ring.
    assert (0 <= - a * w) by (apply Qmult_le_0_compat; lra). lra. }
  setoid_replace (4 / 10000) with (1 # 2500) by reflexivity.
  apply Q.max_lub; lra.
Qed.

Lemma recenterEffect_value (i : ChartInputs Q) (st : option Q) (q : Q) :
  recenterEffect i st = Some q -> q = currentPrice i.
Proof.
  unfold recenterEffect.
  destruct (negb (isPostTrade i)); [ discriminate | ].
  destruct (leb _ _); [ discriminate | ].
  destruct (leb _ _); [ | discriminate ].
  intros Heq. injection Heq as Heq. symmetry. exact Heq.
Qed.

(** One tick stores nothing, or stores the current price once. *)
Lemma settle_once (fuel : nat) (i : ChartInputs Q) (st : option Q) :
  settle fuel i st = (O, st) \/
  settle fuel i st = (1%nat, Some (currentPrice i)).
Proof.
  destruct fuel as [ | fuel ]; [ left; reflexivity | ].
  cbn [settle].
  destruct (recenterEffect i st) as [ q | ] eqn:Heffect;
    [ | left; reflexivity ].
  apply recenterEffect_value in Heffect. subst q. right.
  destruct fuel as [ | fuel ]; [ reflexivity | ].
  cbn [settle]. rewrite recenterEffect_centered. reflexivity.
Qed.

Lemma recenterEffect_degenerate (i : ChartInputs Q) (a : Q) :
  isPostTrade i = true -> a <= 0 -> recenterEffect i (Some a) = None.
Proof.
  intros Hpost Ha. rewrite recenterEffect_tracked by trivial.
  pose proof (halfRange_nonpos i Hpost Ha) as Hhalf.
  apply Qle_bool_iff in Hhalf. rewrite Hhalf. reflexivity.
Qed.

Lemma recenterEffect_untracked (i : ChartInputs Q) (st : option Q) :
  isPostTrade i = false -> recenterEffect i st = None.
Proof. intros Hpre. unfold recenterEffect. rewrite Hpre. reflexivity. Qed.

(** The pixel of the price when it is inside the band of the anchor. *)
Lemma price_line_band (i : ChartInputs Q) (a p : Q) :
  isPostTrade i = true -> 0 < a ->
  Qabs (p - a) < (85 # 100) * halfRange i a ->
  32 < currentPriceLineTop (withPrice i p) (Some a) /\
  currentPriceLineTop (withPrice i p) (Some a) < 168.
Proof.
  intros Hpost Ha Hin.
  assert (Hanchor : anchor (withPrice i p) (Some a) = a)
    by (unfold anchor; cbn [isPostTrade withPrice]; rewrite Hpost;
        reflexivity).
  assert (Hrow : currentPriceLineTop (withPrice i p) (Some a) ==
                 100 - 80 * ((p - a)
                             / (a * ((12 # 10) / displayLeverage i)))).
  { unfold currentPriceLineTop.
    rewrite linePosition_component by (rewrite Hanchor; exact Ha).
    rewrite Hanchor. reflexivity. }
  rewrite (@halfRange_value i a Hpost) in Hin.
  rewrite (halfSpan_component Ha (displayLeverage_range i)) in Hin.
  set (top := currentPriceLineTop (withPrice i p) (Some a)) in *.
  clearbody top.
  set (h := a * ((12 # 10) / displayLeverage i)) in *.
  assert (Hh : 0 < h).
  { unfold h. apply Qmult_lt_0_compat; trivial.
    pose proof (displayLeverage_range i).
    apply Qlt_shift_div_l; lra. }
  clearbody h.
  apply Qabs_Qlt_condition in Hin. destruct Hin as [Hlow Hup].
  assert (Hr1 : - (85 # 100) < (p - a) / h)
    by (apply Qlt_shift_div_l; lra).
  assert (Hr2 : (p - a) / h < 85 # 100)
    by (apply Qlt_shift_div_r; lra).
  split; lra.
Qed.

(** After a tick at a positive price the anchor is positive and the price
    is inside its band. *)
Lemma tick_invariant (fuel : nat) (i : ChartInputs Q) (a p : Q) :
  isPostTrade i = true -> 0 < a -> 0 < p ->
  exists a',
    snd (tick (S fuel) i (Some a) p) = Some a' /\ 0 < a' /\
    Qabs (p - a') < (85 # 100) * halfRange i a'.
Proof.
  intros Hpost Ha Hp.
  destruct (Qlt_le_dec (Qabs (p - a)) ((85 # 100) * halfRange i a))
    as [Hin | Hout].
  - exists a. rewrite tick_inside by trivial. repeat split; trivial.
  - exists p.
    rewrite tick_edge by (trivial; apply halfRange_pos; trivial).
    repeat split; trivial.
    pose proof (halfRange_pos i Hpost Hp) as Hhalf.
    setoid_replace (p - p) with 0 by ring.
    change (Qabs 0) with 0. lra.
Qed.

Lemma ticks_invariant (fuel : nat) (i : ChartInputs Q) (ps : list Q) :
  isPostTrade i = true ->
  Forall (fun q => 0 < q) ps ->
  forall a, 0 < a ->
  exists a', snd (ticks (S fuel) i (Some a) ps) = Some a' /\ 0 < a'.
Proof.
  intros Hpost Hall. induction Hall as [ | q qs Hq _ IH ]; intros a Ha.
  - exists a. split; trivial.
  - destruct (@tick_invariant fuel i a q Hpost Ha Hq) as (a1 & Hst & Ha1 & _).
    cbn [ticks].
    destruct (tick (S fuel) i (Some a) q) as [n st]. cbn [snd] in Hst.
    subst st.
    destruct (IH a1 Ha1) as (a' & Hst' & Ha').
    destruct (ticks (S fuel) i (Some a1) qs) as [m st']. cbn [snd] in *.
    exists a'. split; trivial.
Qed.



(** X10.  For every input and every state, one price tick stores an anchor
    at most once, and the state after it is the state before it or that
    tick's price; so a sequence of ticks recentres at most once per
    tick. *)
Theorem X10_one_recenter_per_tick
        (fuel : nat) (i : ChartInputs Q) (st : option Q) :
  (forall p : Q,
      tick fuel i st p = (O, st) \/ tick fuel i st p = (1%nat, Some p)) /\
  (forall ps : list Q,
      (fst (ticks fuel i st ps) <= List.length ps)%nat).
Proof.
  split.
  - intros p. unfold tick.
    destruct (settle_once fuel (withPrice i p) st) as [Hq | Hq];
      rewrite Hq; [ left | right ]; reflexivity.
  - intros ps. revert st. induction ps as [ | p ps IH ]; intros st.
    + cbn. apply Nat.le_refl.
    + cbn [ticks List.length]. unfold tick.
      destruct (settle_once fuel (withPrice i p) st) as [Hq | Hq];
        rewrite Hq.
      * specialize (IH st). destruct (ticks fuel i st ps) as [m st'].
        cbn [fst] in *. apply Nat.le_trans with (1 := IH).
        apply Nat.le_succ_diag_r.
      * specialize (IH (Some (currentPrice (withPrice i p)))).
        destruct (ticks fuel i _ ps) as [m st']. cbn [fst] in *.
        cbn [Nat.add]. apply le_n_S, IH.
Qed.

(** X11.  Price ticks never store an anchor when there is no open position,
    nor when the stored anchor is zero or negative: with a half-range that
    is not positive the effect returns early, so such an anchor stays until
    the position changes. *)
Theorem X11_recenter_guards
        (fuel : nat) (i : ChartInputs Q) (ps : list Q) :
  (isPostTrade i = false ->
   forall st, ticks fuel i st ps = (O, st)) /\
  (isPostTrade i = true ->
   forall a, a <= 0 -> ticks fuel i (Some a) ps = (O, Some a)).
Proof.
  split.
  - intros Hpre st. induction ps as [ | p ps IH ]; trivial.
    cbn [ticks]. unfold tick.
    destruct fuel as [ | fuel' ].
    + cbn [settle]. rewrite IH. reflexivity.
    + cbn [settle].
      rewrite recenterEffect_untracked by exact Hpre.
      rewrite IH. reflexivity.
  - intros Hpost a Ha. induction ps as [ | p ps IH ]; trivial.
    cbn [ticks]. unfold tick.
    destruct fuel as [ | fuel' ].
    + cbn [settle]. rewrite IH. reflexivity.
    + cbn [settle].
      rewrite recenterEffect_degenerate by trivial.
      rewrite IH. reflexivity.
Qed.

Lemma X11_recenter_guards_witness :
  ticks 3 (trackedAt (T := Q) 100 10) (Some 0) [50; 100; 200] = (O, Some 0).
Proof.
  apply (@X11_recenter_guards 3 (trackedAt (T := Q) 100 10) [50; 100; 200]).
  - reflexivity.
  - vm_compute. discriminate.
Defined.

End RecenterInvariants.

(** ** Properties of the market data *)

Section MarketDataFacts.

Context {T : Type} `{JsNumber T}.

Lemma valueAt_last (data : list (Backend.ChartDataPoint T))
      (point : Backend.ChartDataPoint T) :
  Backend.valueAt (data ++ [point]) (List.length (data ++ [point]) - 1) =
  Backend.value point.
Proof.
  unfold Backend.valueAt.
  rewrite length_app. cbn [List.length].
  rewrite Nat.add_sub.
  rewrite nth_error_app2 by apply Nat.le_refl.
  rewrite Nat.sub_diag. reflexivity.
Qed.

(** X12.  [getCurrentPriceFromHistorical] is 0 on an empty series and
    otherwise the value of the last point, whatever comes before it. *)
Theorem X12_getCurrentPriceFromHistorical_last
        (data : list (Backend.ChartDataPoint T))
        (point : Backend.ChartDataPoint T) :
  Backend.getCurrentPriceFromHistorical (T := T) [] = ofZ 0 /\
  Backend.getCurrentPriceFromHistorical (data ++ [point]) =
  Backend.value point.
Proof.
  split; [ reflexivity | ].
  unfold Backend.getCurrentPriceFromHistorical.
  rewrite valueAt_last.
  rewrite length_app. cbn [List.length]. rewrite Nat.add_1_r.
  reflexivity.
Qed.

Lemma calculatePriceChange_endpoints
      (first last : Backend.ChartDataPoint T)
      (middle : list (Backend.ChartDataPoint T)) :
  Backend.calculatePriceChange (first :: middle ++ [last]) =
  Backend.calculatePriceChange [first; last].
Proof.
  unfold Backend.calculatePriceChange.
  change (first :: middle ++ [last]) with ((first :: middle) ++ [last]).
  rewrite valueAt_last.
  rewrite length_app. cbn [List.length]. rewrite Nat.add_1_r.
  reflexivity.
Qed.

(** X13.  [calculatePriceChange] is zero for a series of fewer than two
    points; for a longer one it depends on the first and the last point
    only: the change is their difference and the percentage is the change
    over the first price, times 100. *)
Theorem X13_calculatePriceChange_endpoints
        (first last : Backend.ChartDataPoint T)
        (middle : list (Backend.ChartDataPoint T)) :
  Backend.calculatePriceChange (T := T) [] =
  {| Backend.change := ofZ 0; Backend.changePercent := ofZ 0 |} /\
  Backend.calculatePriceChange [first] =
  {| Backend.change := ofZ 0; Backend.changePercent := ofZ 0 |} /\
  Backend.calculatePriceChange (first :: middle ++ [last]) =
  {| Backend.change := sub (Backend.value last) (Backend.value first);
     Backend.changePercent :=
       mul (div (sub (Backend.value last) (Backend.value first))
                (Backend.value first))
           (ofZ 100) |}.
Proof.
  repeat split. apply calculatePriceChange_endpoints.
Qed.

End MarketDataFacts.

Section PriceChangeFacts.

Local Open Scope Q_scope.



End PriceChangeFacts.

(** ** Properties of the price lookup *)

Section TokenPriceFacts.

Import String.

Context {T : Type} `{JsNumber T}.

Lemma token_eqb_eq (a b : Backend.SupportedToken) :
  Backend.token_eqb a b = true <-> a = b.
Proof. destruct a, b; cbn; split; intros Hx; congruence. Qed.

(** The object built by the loop over [tokens]. *)
Lemma fetch_fold (markets : list (Backend.Market T)) (stamp : String.string)
      (tokens : list Backend.SupportedToken)
      (result : Backend.TokenPrices T) (token : Backend.SupportedToken) :
  fold_left
    (fun result token =>
       match Backend.findMarket markets token with
       | Some marketData =>
           Backend.setPrice result token
                            (Backend.tokenPriceOf token marketData stamp)
       | None => result
       end)
    tokens result token =
  match (if existsb (Backend.token_eqb token) tokens
         then Backend.findMarket markets token else None) with
  | Some marketData => Some (Backend.tokenPriceOf token marketData stamp)
  | None => result token
  end.
Proof.
  revert result. induction tokens as [ | t tokens IH ]; intros result.
  - reflexivity.
  - cbn [fold_left existsb]. rewrite IH.
    destruct (existsb (Backend.token_eqb token) tokens) eqn:Hrest.
    + rewrite orb_true_r.
      destruct (Backend.findMarket markets token) eqn:Hfound; trivial.
      destruct (Backend.findMarket markets t) eqn:Ht; trivial.
      unfold Backend.setPrice.
      destruct (Backend.token_eqb token t) eqn:Heq; trivial.
      apply token_eqb_eq in Heq. subst t. congruence.
    + rewrite orb_false_r.
      destruct (Backend.token_eqb token t) eqn:Heq.
      * apply token_eqb_eq in Heq. subst t.
        destruct (Backend.findMarket markets token) eqn:Hfound; trivial.
        unfold Backend.setPrice.
        destruct (Backend.token_eqb token token) eqn:Hrefl; trivial.
        assert (Backend.token_eqb token token = true)
          by (apply token_eqb_eq; reflexivity).
        congruence.
      * destruct (Backend.findMarket markets t) eqn:Ht; trivial.
        unfold Backend.setPrice. rewrite Heq. reflexivity.
Qed.

Lemma existsb_token_In (token : Backend.SupportedToken)
      (tokens : list Backend.SupportedToken) :
  existsb (Backend.token_eqb token) tokens = true <-> In token tokens.
Proof.
  rewrite existsb_exists. split.
  - intros (t & Hin & Heq). apply token_eqb_eq in Heq. subst t. exact Hin.
  - intros Hin. exists token. split; trivial.
    apply token_eqb_eq. reflexivity.
Qed.

(** The market that [find] returns is the first one with the key. *)
Lemma findMarket_first (markets : list (Backend.Market T))
      (token : Backend.SupportedToken) (marketData : Backend.Market T) :
  Backend.findMarket markets token = Some marketData ->
  exists before after,
    markets = before ++ marketData :: after /\
    Backend.symbol marketData = Backend.marketKey token /\
    Forall (fun m => Backend.symbol m <> Backend.marketKey token) before.
Proof.
  unfold Backend.findMarket.
  induction markets as [ | m markets IH ]; [ discriminate | ].
  cbn [find].
  destruct (String.eqb (Backend.symbol m) (Backend.marketKey token))
    eqn:Hkey.
  - intros Heq. injection Heq as Heq. subst m.
    exists [], markets. repeat split.
    + apply String.eqb_eq, Hkey.
    + constructor.
  - intros Hfound.
    destruct (IH Hfound) as (before & after & Hsplit & Hsym & Hno).
    exists (m :: before), after. subst markets. repeat split; trivial.
    constructor; trivial.
    apply String.eqb_neq, Hkey.
Qed.

Lemma findMarket_none (markets : list (Backend.Market T))
      (token : Backend.SupportedToken) :
  Backend.findMarket markets token = None <->
  Forall (fun m => Backend.symbol m <> Backend.marketKey token) markets.
Proof.
  unfold Backend.findMarket. split.
  - intros Hnone. apply Forall_forall. intros m Hin Hsym.
    apply (find_none _ _ Hnone) in Hin.
    apply String.eqb_neq in Hin. contradiction.
  - intros Hall. induction Hall as [ | m ms Hm _ IH ]; trivial.
    cbn [find]. apply String.eqb_neq in Hm. rewrite Hm. exact IH.
Qed.

(** X15.  [fetchTokenPrices] rethrows what the request threw and throws on
    a response without [success] or without [data].  Otherwise its result
    has an entry for a token exactly when the token was asked for and some
    market carries its key ([SOL-PERP], [ETH-PERP], [BTC-PERP]); the entry
    is built from the first such market, and its [current_price] is that
    market's price. *)
Theorem X15_fetchTokenPrices_lookup
        (tokens : list Backend.SupportedToken)
        (response : Backend.BackendMarketResponse T) :
  (forall error,
      Backend.fetchTokenPrices (Some tokens) (Backend.Throw error) =
      Backend.Throw error) /\
  (Backend.success response = false \/ Backend.data response = None ->
   Backend.fetchTokenPrices (Some tokens) (Backend.Ok response) =
   Backend.Throw "Invalid response format from backend"%string) /\
  (forall markets,
      Backend.success response = true ->
      Backend.data response = Some markets ->
      exists prices,
        Backend.fetchTokenPrices (Some tokens) (Backend.Ok response) =
        Backend.Ok prices /\
        forall token p,
          prices token = Some p <->
          In token tokens /\
          exists before marketData after,
            markets = before ++ marketData :: after /\
            Backend.symbol marketData = Backend.marketKey token /\
            Forall (fun m => Backend.symbol m <> Backend.marketKey token)
                   before /\
            p = Backend.tokenPriceOf token marketData
                                     (Backend.timestamp response) /\
            Backend.current_price p = Backend.price marketData).
Proof.
  split; [ reflexivity | ]. split.
  - intros [Hs | Hd]; unfold Backend.fetchTokenPrices.
    + rewrite Hs. reflexivity.
    + rewrite Hd. destruct (Backend.success response); reflexivity.
  - intros markets Hs Hd. unfold Backend.fetchTokenPrices.
    rewrite Hs, Hd. eexists. split; [ reflexivity | ].
    intros token p. rewrite fetch_fold. unfold Backend.noPrices.
    destruct (existsb (Backend.token_eqb token) tokens) eqn:Hin.
    + apply existsb_token_In in Hin.
      destruct (Backend.findMarket markets token) as [ m | ] eqn:Hfound.
      * destruct (findMarket_first _ _ Hfound)
          as (before & after & Hsplit & Hsym & Hno).
        split.
        -- intros Heq. injection Heq as Heq. subst p.
           split; trivial. exists before, m, after. repeat split; trivial.
        -- intros (_ & before' & m' & after' & Hsplit' & Hsym' & Hno' & Hp & _).
           assert (Hsame : Backend.findMarket markets token = Some m').
           { subst markets. rewrite Hsplit'. unfold Backend.findMarket.
             clear - Hsym' Hno'.
             induction Hno' as [ | x xs Hx _ IH ]; cbn [app find].
             - rewrite Hsym', String.eqb_refl. reflexivity.
             - apply String.eqb_neq in Hx. rewrite Hx. exact IH. }
           rewrite Hfound in Hsame. injection Hsame as Hsame. subst m'.
           congruence.
      * split; [ discriminate | ].
        intros (_ & before & m & after & Hsplit & Hsym & _).
        apply findMarket_none in Hfound.
        rewrite Hsplit in Hfound. apply Forall_app in Hfound.
        destruct Hfound as [_ Hrest]. inversion Hrest; subst. contradiction.
    + split; [ discriminate | ].
      intros (Hcontra & _). apply existsb_token_In in Hcontra. congruence.
Qed.

End TokenPriceFacts.

Lemma X15_fetchTokenPrices_lookup_witness :
  exists message,
    Backend.fetchTokenPrices (T := Q) (Some [Backend.sol])
      (Backend.Ok {| Backend.success := false; Backend.data := None;
                     Backend.timestamp := String.EmptyString |}) =
    Backend.Throw message.
Proof.
  destruct (@X15_fetchTokenPrices_lookup Q QNum [Backend.sol]
              {| Backend.success := false; Backend.data := None;
                 Backend.timestamp := String.EmptyString |})
    as (_ & Hinvalid & _).
  eexists. apply Hinvalid. left. reflexivity.
Defined.

Section SingleTokenFacts.

Import String.

Context {T : Type} `{JsNumber T}.

Lemma fetchTokenPrices_single (token : Backend.SupportedToken)
      (response : Backend.BackendMarketResponse T)
      (markets : list (Backend.Market T)) :
  Backend.success response = true ->
  Backend.data response = Some markets ->
  exists prices,
    Backend.fetchTokenPrices (Some [token]) (Backend.Ok response) =
    Backend.Ok prices /\
    prices token =
    option_map (fun m => Backend.tokenPriceOf token m
                                              (Backend.timestamp response))
               (Backend.findMarket markets token).
Proof.
  intros Hs Hd. unfold Backend.fetchTokenPrices. rewrite Hs, Hd.
  eexists. split; [ reflexivity | ].
  rewrite fetch_fold. cbn [existsb].
  assert (Hrefl : Backend.token_eqb token token = true)
    by (apply token_eqb_eq; reflexivity).
  rewrite Hrefl. cbn [orb]. unfold Backend.noPrices.
  destruct (Backend.findMarket markets token); reflexivity.
Qed.

Lemma fetchSingleTokenPrice_unfold (token : Backend.SupportedToken)
      (response : Backend.BackendMarketResponse T)
      (markets : list (Backend.Market T)) :
  Backend.success response = true ->
  Backend.data response = Some markets ->
  Backend.fetchSingleTokenPrice token (Backend.Ok response) =
  match Backend.findMarket markets token with
  | Some m =>
      Backend.Ok (Backend.tokenPriceOf token m (Backend.timestamp response))
  | None =>
      Backend.Throw
        ("No price data available for " ++ Backend.tokenKey token)%string
  end.
Proof.
  intros Hs Hd.
  destruct (fetchTokenPrices_single token response Hs Hd)
    as (prices & Hfetch & Hentry).
  unfold Backend.fetchSingleTokenPrice. rewrite Hfetch, Hentry.
  destruct (Backend.findMarket markets token); reflexivity.
Qed.

(** X16.  On a valid response [fetchSingleTokenPrice] throws
    [No price data available for <token>] exactly when no market carries
    the token's key; otherwise it returns the price of the first market
    with the key, under the token's own symbol. *)
Theorem X16_fetchSingleTokenPrice_outcome
        (token : Backend.SupportedToken)
        (response : Backend.BackendMarketResponse T)
        (markets : list (Backend.Market T)) :
  Backend.success response = true ->
  Backend.data response = Some markets ->
  (Forall (fun m => Backend.symbol m <> Backend.marketKey token) markets ->
   Backend.fetchSingleTokenPrice token (Backend.Ok response) =
   Backend.Throw
     ("No price data available for " ++ Backend.tokenKey token)%string) /\
  (forall before marketData after,
      markets = before ++ marketData :: after ->
      Backend.symbol marketData = Backend.marketKey token ->
      Forall (fun m => Backend.symbol m <> Backend.marketKey token) before ->
      exists p,
        Backend.fetchSingleTokenPrice token (Backend.Ok response) =
        Backend.Ok p /\
        Backend.current_price p = Backend.price marketData /\
        Backend.tp_symbol p = Backend.toUpperCase token /\
        Backend.last_updated p = Backend.timestamp response).
Proof.
  intros Hs Hd. rewrite (fetchSingleTokenPrice_unfold token response Hs Hd).
  split.
  - intros Hnone. apply findMarket_none in Hnone. rewrite Hnone.
    reflexivity.
  - intros before m after Hsplit Hsym Hno.
    assert (Hfound : Backend.findMarket markets token = Some m).
    { subst markets. unfold Backend.findMarket. clear - Hsym Hno.
      induction Hno as [ | x xs Hx _ IH ]; cbn [app find].
      - rewrite Hsym, String.eqb_refl. reflexivity.
      - apply String.eqb_neq in Hx. rewrite Hx. exact IH. }
    rewrite Hfound. eexists. split; [ reflexivity | ]. repeat split.
Qed.

End SingleTokenFacts.

Lemma X16_fetchSingleTokenPrice_outcome_witness :
  exists message,
    Backend.fetchSingleTokenPrice (T := Q) Backend.eth
      (Backend.Ok {| Backend.success := true; Backend.data := Some [];
                     Backend.timestamp := String.EmptyString |}) =
    Backend.Throw message.
Proof.
  destruct (@X16_fetchSingleTokenPrice_outcome Q QNum Backend.eth
              {| Backend.success := true; Backend.data := Some [];
                 Backend.timestamp := String.EmptyString |}
              [] eq_refl eq_refl)
    as (Hmissing & _).
  eexists. apply Hmissing. constructor.
Defined.

(** ** Properties of the generated series *)

Section HistoricalFacts.

Local Open Scope Q_scope.

(** Rounding to cents moves a price by at most half a cent. *)
Lemma round_cents (x : Q) :
  let v := Math_round (x * 100) / 100 in
  v * 100 == inject_Z (Qfloor (x * 100 + (1 # 2))) /\
  Qabs (v - x) <= 1 # 200.
Proof.
  cbv zeta. cbn [Math_round QRound].
  set (z := Qfloor (x * 100 + (1 # 2))).
  pose proof (Qfloor_le (x * 100 + (1 # 2))) as Hle.
  pose proof (Qlt_floor (x * 100 + (1 # 2))) as Hlt.
  fold z in Hle, Hlt. rewrite inject_Z_plus in Hlt.
  change (inject_Z 1) with 1 in Hlt.
  set (Z := inject_Z z) in *. clearbody Z.
  split.
  - field.
  - apply Qabs_Qle_condition.
    assert (Hv : Z / 100 == Z * (1 # 100)) by (field).
    rewrite Hv. split; lra.
Qed.

Lemma timeframeMs_pos (timeframe : Backend.SupportedTimeframe) :
  0 < Backend.timeframeMs (T := Q) timeframe.
Proof. destruct timeframe; reflexivity. Qed.

Lemma mockPoints_length (cp now step : Q) (random : nat -> Q)
      (i : nat) (prev : Q) :
  List.length (Backend.mockPoints cp now step random i prev) = S i.
Proof.
  revert prev. induction i as [ | i IH ]; intros prev; trivial.
  cbn [Backend.mockPoints List.length]. rewrite IH. reflexivity.
Qed.

Lemma mockPoints_timestamps (cp now step : Q) (random : nat -> Q)
      (i : nat) (prev : Q) :
  map (@Backend.point_timestamp Q)
      (Backend.mockPoints cp now step random i prev) =
  map (fun k => Some (now - inject_Z (Z.of_nat k) * step))
      (rev (seq 0 (S i))).
Proof.
  revert prev. induction i as [ | i IH ]; intros prev; trivial.
  cbn [Backend.mockPoints map Backend.point_timestamp].
  rewrite IH.
  rewrite (seq_S (S i) 0), rev_app_distr. reflexivity.
Qed.

Lemma mockPoints_cents (cp now step : Q) (random : nat -> Q)
      (i : nat) (prev : Q) :
  Forall (fun point => exists z, Backend.value point * 100 == inject_Z z)
         (Backend.mockPoints cp now step random i prev).
Proof.
  revert prev. induction i as [ | i IH ]; intros prev.
  - constructor; [ | constructor ].
    eexists. cbn [Backend.value]. apply round_cents.
  - cbn [Backend.mockPoints]. constructor; [ | apply IH ].
    eexists. cbn [Backend.value]. apply round_cents.
Qed.

Lemma mockPoints_current (cp now step : Q) (random : nat -> Q)
      (i : nat) (prev : Q) :
  Backend.getCurrentPriceFromHistorical
    (Backend.mockPoints cp now step random i prev) =
  Math_round (cp * 100) / 100.
Proof.
  revert prev. induction i as [ | i IH ]; intros prev; trivial.
  specialize (IH (Math_round
                    ((prev * (1 + (random (S i) - (5 # 10)) * (25 # 1000)
                                  * (1 - (6 - inject_Z (Z.of_nat (S i))) / 6
                                         * (5 # 10)))
                      + (cp - prev) * ((6 - inject_Z (Z.of_nat (S i))) / 6)
                        * (1 # 10)) * 100) / 100)).
  unfold Backend.getCurrentPriceFromHistorical in *.
  cbn [Backend.mockPoints List.length].
  rewrite mockPoints_length in *.
  cbn [Nat.ltb Nat.leb] in *.
  replace (S (S i) - 1)%nat with (S i) by (cbn; reflexivity).
  replace (S i - 1)%nat with i in IH by (cbn; rewrite Nat.sub_0_r; reflexivity).
  unfold Backend.valueAt in *. cbn [nth_error]. exact IH.
Qed.

End HistoricalFacts.

Section HistoricalProperties.

Local Open Scope Q_scope.

Lemma fetchHistoricalData_unfold
      (token : Backend.SupportedToken)
      (timeframe : option Backend.SupportedTimeframe)
      (response : Backend.BackendMarketResponse Q)
      (markets : list (Backend.Market Q)) (now : Q) (random : nat -> Q) :
  Backend.success response = true ->
  Backend.data response = Some markets ->
  Backend.fetchHistoricalData token timeframe (Backend.Ok response)
                              now random =
  Backend.Ok
    (Backend.mockPoints
       (historicalBase markets token) now
       (Backend.timeframeMs
          (match timeframe with Some tf => tf | None => Backend.tf_1m end))
       random 6 (historicalBase markets token)).
Proof.
  intros Hs Hd.
  destruct (fetchTokenPrices_single token response Hs Hd)
    as (prices & Hfetch & Hentry).
  unfold Backend.fetchHistoricalData. rewrite Hfetch, Hentry.
  unfold historicalBase.
  destruct (Backend.findMarket markets token) as [ m | ]; trivial.
  cbn [option_map Backend.tokenPriceOf Backend.current_price truthy QNum].
  destruct (Qeq_bool (Backend.price m) 0); reflexivity.
Qed.

(** X17.  On a valid response [fetchHistoricalData] returns seven points,
    whatever the random draws are.  Their timestamps are
    [now - k * step] for [k = 6, 5, ..., 0], with [step] the positive length
    of the timeframe (one minute when none is given): they strictly
    increase and the last one is [now]. *)
Theorem X17_fetchHistoricalData_shape
        (token : Backend.SupportedToken)
        (timeframe : option Backend.SupportedTimeframe)
        (response : Backend.BackendMarketResponse Q)
        (markets : list (Backend.Market Q)) (now : Q) (random : nat -> Q) :
  Backend.success response = true ->
  Backend.data response = Some markets ->
  let step :=
    Backend.timeframeMs
      (match timeframe with Some tf => tf | None => Backend.tf_1m end) in
  let stamps := map (fun k => now - inject_Z k * step) historicalOffsets in
  exists points,
    Backend.fetchHistoricalData token timeframe (Backend.Ok response)
                                now random = Backend.Ok points /\
    List.length points = 7%nat /\
    map (@Backend.point_timestamp Q) points = map Some stamps /\
    0 < step /\
    strictly_increasing stamps /\
    List.last stamps 0 == now.
Proof.
  intros Hs Hd step stamps.
  rewrite (fetchHistoricalData_unfold token timeframe response now random
                                      Hs Hd).
  fold step. eexists. split; [ reflexivity | ].
  pose proof (timeframeMs_pos
                (match timeframe with
                 | Some tf => tf
                 | None => Backend.tf_1m
                 end)) as Hstep.
  fold step in Hstep.
  split; [ apply mockPoints_length | ].
  split; [ rewrite mockPoints_timestamps; reflexivity | ].
  split; [ exact Hstep | ].
  subst stamps. unfold historicalOffsets. cbn [map List.last].
  clearbody step.
  split.
  - cbn [strictly_increasing].
    change (inject_Z 6) with 6. change (inject_Z 5) with 5.
    change (inject_Z 4) with 4. change (inject_Z 3) with 3.
    change (inject_Z 2) with 2. change (inject_Z 1) with 1.
    change (inject_Z 0) with 0.
    repeat split; lra.
  - change (inject_Z 0) with 0. ring.
Qed.

Lemma X17_fetchHistoricalData_shape_witness :
  exists points,
    Backend.fetchHistoricalData (T := Q) Backend.sol None
      (Backend.Ok {| Backend.success := true; Backend.data := Some [];
                     Backend.timestamp := String.EmptyString |})
      1000000 (fun _ => 3 # 4) = Backend.Ok points /\
    List.length points = 7%nat.
Proof.
  destruct (@X17_fetchHistoricalData_shape Backend.sol None
              {| Backend.success := true; Backend.data := Some [];
                 Backend.timestamp := String.EmptyString |}
              [] 1000000 (fun _ => 3 # 4) eq_refl eq_refl)
    as (points & Hfetch & Hlen & _).
  exists points. split; [ exact Hfetch | exact Hlen ].
Defined.



End HistoricalProperties.

(** ** Properties of the avatar file names *)

Section AvatarFacts.

Import Ascii String.

Lemma chars_app (a b : string) :
  list_ascii_of_string (a ++ b)%string =
  (list_ascii_of_string a ++ list_ascii_of_string b)%list.
Proof. induction a as [ | c a IH ]; cbn; [ | rewrite IH ]; reflexivity. Qed.

Lemma last_cons_nonempty (A : Type) (x : A) (l : list A) (d : A) :
  l <> [] -> List.last (x :: l) d = List.last l d.
Proof. destruct l; [ congruence | reflexivity ]. Qed.

(** The parts of a split: one part, the string itself, when the separator
    does not occur; otherwise the last part is what follows the last
    separator.  The last part never holds the separator. *)
Lemma split_shape (sep : ascii) (s : string) :
  exists head tail,
    Avatar.split sep s = head :: tail /\
    ((tail = [] /\ head = s) \/
     (tail <> [] /\
      exists before,
        s = (before ++ String sep (List.last tail EmptyString))%string)) /\
    ~ In sep (list_ascii_of_string (List.last (head :: tail) EmptyString)).
Proof.
  induction s as [ | c rest IH ].
  - exists EmptyString, []. repeat split; [ left; split; reflexivity | ].
    intros Hin. destruct Hin.
  - destruct IH as (head & tail & Hsplit & Hshape & Hclean).
    cbn [Avatar.split]. destruct (Ascii.eqb c sep) eqn:Hc.
    + apply Ascii.eqb_eq in Hc. subst c.
      exists EmptyString, (head :: tail). rewrite Hsplit.
      split; [ reflexivity | ]. split.
      * right. split; [ discriminate | ].
        destruct Hshape as [[Htail Hhead] | [Htail (before & Hrest)]].
        -- subst tail head. exists EmptyString. reflexivity.
        -- exists (String sep before).
           rewrite (last_cons_nonempty head EmptyString Htail).
           rewrite Hrest at 1. reflexivity.
      * rewrite last_cons_nonempty by discriminate. exact Hclean.
    + rewrite Hsplit. exists (String c head), tail.
      split; [ reflexivity | ].
      destruct Hshape as [[Htail Hhead] | [Htail (before & Hrest)]].
      * subst tail head. split; [ left; split; reflexivity | ].
        cbn [List.last list_ascii_of_string] in *. intros [Heq | Hin].
        -- subst c. rewrite Ascii.eqb_refl in Hc. discriminate.
        -- contradiction.
      * split.
        -- right. split; trivial. exists (String c before).
           rewrite Hrest at 1. reflexivity.
        -- rewrite last_cons_nonempty by trivial.
           rewrite last_cons_nonempty in Hclean by trivial. exact Hclean.
Qed.

Lemma lastPart_shape (sep : ascii) (s : string) :
  (Avatar.lastPart (Avatar.split sep s) = s \/
   exists before,
     s = (before
          ++ String sep (Avatar.lastPart (Avatar.split sep s)))%string) /\
  ~ In sep (list_ascii_of_string (Avatar.lastPart (Avatar.split sep s))).
Proof.
  destruct (split_shape sep s) as (head & tail & Hsplit & Hshape & Hclean).
  unfold Avatar.lastPart. rewrite Hsplit. split; trivial.
  destruct Hshape as [[Htail Hhead] | [Htail (before & Hrest)]].
  - subst tail head. left. reflexivity.
  - right. exists before.
    rewrite last_cons_nonempty by trivial. exact Hrest.
Qed.

Lemma split_clean (sep : ascii) (s : string) :
  ~ In sep (list_ascii_of_string s) -> Avatar.split sep s = [s].
Proof.
  induction s as [ | c rest IH ]; intros Hclean; trivial.
  cbn [Avatar.split]. cbn [list_ascii_of_string] in Hclean.
  destruct (Ascii.eqb c sep) eqn:Hc.
  - apply Ascii.eqb_eq in Hc. subst c. exfalso. apply Hclean. left.
    reflexivity.
  - rewrite IH; [ reflexivity | ].
    intros Hin. apply Hclean. right. exact Hin.
Qed.

Lemma lastPart_after_sep (sep : ascii) (before after : string) :
  ~ In sep (list_ascii_of_string after) ->
  Avatar.lastPart (Avatar.split sep (before ++ String sep after)%string) =
  after.
Proof.
  intros Hclean.
  destruct (lastPart_shape sep (before ++ String sep after)%string)
    as [Hshape Hlast].
  set (l := Avatar.lastPart
              (Avatar.split sep (before ++ String sep after)%string)) in *.
  clearbody l.
  destruct Hshape as [Hwhole | (before' & Hdecomp)].
  - exfalso. apply Hlast. rewrite Hwhole, chars_app.
    apply in_or_app. right. left. reflexivity.
  - (* two decompositions around a last separator *)
    assert (Hchars :
              (list_ascii_of_string before
               ++ sep :: list_ascii_of_string after)%list =
              (list_ascii_of_string before'
               ++ sep :: list_ascii_of_string l)%list).
    { apply (f_equal list_ascii_of_string) in Hdecomp.
      rewrite !chars_app in Hdecomp. exact Hdecomp. }
    assert (Hsame : list_ascii_of_string after = list_ascii_of_string l).
    { clear - Hchars Hclean Hlast.
      revert before' Hchars.
      induction (list_ascii_of_string before) as [ | x xs IH ];
        intros before' Hchars.
      - destruct (list_ascii_of_string before') as [ | y ys ]; cbn in Hchars.
        + congruence.
        + injection Hchars as Hx Hrest. exfalso. apply Hclean.
          rewrite Hrest. apply in_or_app. right. left. reflexivity.
      - destruct (list_ascii_of_string before') as [ | y ys ] eqn:Hb;
          cbn in Hchars.
        + injection Hchars as Hx Hrest. exfalso. apply Hlast.
          rewrite <- Hrest. apply in_or_app. right. left. reflexivity.
        + injection Hchars as Hx Hrest.
          apply (IH (string_of_list_ascii ys)).
          rewrite list_ascii_of_string_of_list_ascii. exact Hrest. }
    rewrite <- (string_of_list_ascii_of_string after),
            <- (string_of_list_ascii_of_string l).
    rewrite Hsame. reflexivity.
Qed.

Lemma hexRun_length (n : nat) (s rest : string) :
  Avatar.hexRun n s = Some rest ->
  String.length s = (n + String.length rest)%nat.
Proof.
  revert s. induction n as [ | n IH ]; intros s; cbn [Avatar.hexRun].
  - intros Heq. injection Heq as Heq. subst. reflexivity.
  - destruct s as [ | c s ]; [ discriminate | ].
    destruct (Avatar.isHex c); [ | discriminate ].
    intros Hrun. apply IH in Hrun. cbn [String.length]. rewrite Hrun.
    reflexivity.
Qed.

Lemma thenHex_length (n : nat) (o : option string) (rest : string) :
  Avatar.thenHex n o = Some rest ->
  exists s, o = Some s /\ String.length s = (n + String.length rest)%nat.
Proof.
  destruct o as [ s | ]; [ | discriminate ].
  intros Hrun. exists s. split; trivial. apply hexRun_length, Hrun.
Qed.

Lemma expect_length (ok : ascii -> bool) (o : option string)
      (rest : string) :
  Avatar.expect ok o = Some rest ->
  exists s, o = Some s /\ String.length s = S (String.length rest).
Proof.
  destruct o as [ [ | c s ] | ]; try discriminate.
  cbn [Avatar.expect]. destruct (ok c); [ | discriminate ].
  intros Heq. injection Heq as Heq. subst. eexists. split; reflexivity.
Qed.

(** A name that passes the pattern has 36 + 5 characters. *)
Lemma filenameRegex_length (filename : string) :
  Avatar.filenameRegex_test filename = true ->
  String.length filename = 41%nat.
Proof.
  unfold Avatar.filenameRegex_test.
  match goal with
  | |- match ?o with _ => _ end = true -> _ =>
      destruct o as [ [ | c s ] | ] eqn:Hend; try discriminate
  end.
  intros _.
  repeat match goal with
         | H : Avatar.expect _ _ = Some _ |- _ =>
             apply expect_length in H; destruct H as (? & H & ?)
         | H : Avatar.thenHex _ _ = Some _ |- _ =>
             apply thenHex_length in H; destruct H as (? & H & ?)
         end.
  match goal with
  | H : Avatar.hexRun _ _ = Some _ |- _ => apply hexRun_length in H
  end.
  cbn [String.length] in *. lia.
Qed.

(** X19.  [deleteAvatar] sends a request only for a URL of the form
    [<before>/<name>] whose last segment [name] passes the pattern of a
    UUID followed by [.webp]: the name has exactly 41 characters and no
    slash, and the request goes to [/api/upload/avatar/<name>].  A URL
    without a slash is never deleted. *)
Theorem X19_deleteAvatar_request (avatarUrl : string) :
  (forall path,
      Avatar.deleteAvatar avatarUrl = Some path ->
      exists before name,
        avatarUrl = (before ++ "/" ++ name)%string /\
        path = ("/api/upload/avatar/" ++ name)%string /\
        String.length name = 41%nat /\
        ~ In "/"%char (list_ascii_of_string name) /\
        Avatar.filenameRegex_test name = true) /\
  (~ In "/"%char (list_ascii_of_string avatarUrl) ->
   Avatar.deleteAvatar avatarUrl = None).
Proof.
  assert (Hrequest : forall path,
             Avatar.deleteAvatar avatarUrl = Some path ->
             exists before name,
               avatarUrl = (before ++ "/" ++ name)%string /\
               path = ("/api/upload/avatar/" ++ name)%string /\
               String.length name = 41%nat /\
               ~ In "/"%char (list_ascii_of_string name) /\
               Avatar.filenameRegex_test name = true).
  { intros path. unfold Avatar.deleteAvatar.
    destruct (lastPart_shape "/" avatarUrl) as [Hshape Hclean].
    set (name := Avatar.lastPart (Avatar.split "/" avatarUrl)) in *.
    destruct (String.eqb name EmptyString) eqn:Hempty; [ discriminate | ].
    destruct (String.eqb name avatarUrl) eqn:Hwhole; [ discriminate | ].
    cbn [orb].
    destruct (Avatar.filenameRegex_test name) eqn:Hregex; [ | discriminate ].
    cbn [negb]. intros Heq. injection Heq as Heq. subst path.
    apply String.eqb_neq in Hwhole.
    destruct Hshape as [ Hsame | (before & Hdecomp) ]; [ contradiction | ].
    exists before, name. repeat split; trivial.
    apply filenameRegex_length, Hregex. }
  split; trivial.
  intros Hclean.
  destruct (Avatar.deleteAvatar avatarUrl) as [ path | ] eqn:Hdel; trivial.
  destruct (Hrequest path eq_refl) as (before & name & Hurl & _).
  exfalso. apply Hclean. rewrite Hurl, chars_app.
  apply in_or_app. right. left. reflexivity.
Qed.

Lemma X19_deleteAvatar_request_witness :
  Avatar.deleteAvatar "123e4567-e89b-12d3-a456-426614174000.webp" = None.
Proof.
  apply X19_deleteAvatar_request.
  cbn. intuition discriminate.
Defined.

(** X20.  The extension that [uploadAvatar] takes from a file name is never
    empty and holds no dot.  It is what follows the last dot; a name that
    ends in a dot gets [jpg], and a name without a dot is taken whole as
    its own extension. *)
Theorem X20_fileExt_cases (fileName : string) :
  (Avatar.fileExt fileName <> EmptyString /\
   ~ In "."%char (list_ascii_of_string (Avatar.fileExt fileName))) /\
  (forall stem ext,
      ext <> EmptyString -> ~ In "."%char (list_ascii_of_string ext) ->
      Avatar.fileExt (stem ++ "." ++ ext)%string = ext) /\
  (forall stem, Avatar.fileExt (stem ++ ".")%string = "jpg"%string) /\
  (fileName <> EmptyString -> ~ In "."%char (list_ascii_of_string fileName) ->
   Avatar.fileExt fileName = fileName).
Proof.
  split; [ | split; [ | split ] ].
  - unfold Avatar.fileExt.
    destruct (lastPart_shape "." fileName) as [_ Hclean].
    destruct (String.eqb _ EmptyString) eqn:Hempty.
    + split; [ discriminate | ].
      cbn. intros [Hc | [Hc | [Hc | Hc]]]; try discriminate Hc. exact Hc.
    + split; [ apply String.eqb_neq, Hempty | exact Hclean ].
  - intros stem ext Hext Hclean. unfold Avatar.fileExt.
    change ("." ++ ext)%string with (String "." ext).
    rewrite (lastPart_after_sep "." stem ext Hclean).
    apply String.eqb_neq in Hext. rewrite Hext. reflexivity.
  - intros stem. unfold Avatar.fileExt.
    change "."%string with (String "." EmptyString).
    rewrite (lastPart_after_sep "." stem EmptyString);
      [ reflexivity | intros Hin; destruct Hin ].
  - intros Hname Hclean. unfold Avatar.fileExt.
    rewrite (split_clean "." fileName Hclean). cbn [Avatar.lastPart List.last].
    apply String.eqb_neq in Hname. rewrite Hname. reflexivity.
Qed.

Lemma X20_fileExt_cases_witness :
  Avatar.fileExt "avatar_1700000000000.jpg" = "jpg"%string /\
  Avatar.fileExt "avatar" = "avatar"%string.
Proof.
  destruct (X20_fileExt_cases "avatar") as (_ & Hext & _ & Hwhole).
  split.
  - apply (Hext "avatar_1700000000000"%string "jpg"%string).
    + discriminate.
    + cbn. intuition discriminate.
  - apply Hwhole.
    + discriminate.
    + cbn. intuition discriminate.
Defined.

End AvatarFacts.

(** ** Properties of the wait for the signature *)

Section PollFacts.

Import String.

Variable reads : nat -> Auth.StorageRead.
Variable removeRejects : bool.
Variable message : string.

Lemma poll_counts (fuel k : nat) :
  (k < 30)%nat ->
  (countEvents Auth.isGetItem
     (Auth.poll reads removeRejects message fuel k) <= 30 - k)%nat /\
  (countEvents Auth.isSetTimeout
     (Auth.poll reads removeRejects message fuel k) <= 29 - k)%nat /\
  (countEvents Auth.isAuthenticate
     (Auth.poll reads removeRejects message fuel k) <= 1)%nat.
Proof.
  revert k. induction fuel as [ | fuel IH ]; intros k Hk.
  - unfold countEvents. cbn [Auth.poll filter List.length].
    repeat split; lia.
  - cbn [Auth.poll]. unfold Auth.maxAttempts.
    assert (Hnext : (S k < 30)%nat ->
                    (S k <? 30)%nat = true /\
                    (countEvents Auth.isGetItem
                       (Auth.poll reads removeRejects message fuel (S k))
                     <= 30 - S k)%nat /\
                    (countEvents Auth.isSetTimeout
                       (Auth.poll reads removeRejects message fuel (S k))
                     <= 29 - S k)%nat /\
                    (countEvents Auth.isAuthenticate
                       (Auth.poll reads removeRejects message fuel (S k))
                     <= 1)%nat).
    { intros Hlt. split; [ apply Nat.ltb_lt, Hlt | apply IH, Hlt ]. }
    assert (Hlast : (30 <= S k)%nat -> (S k <? 30)%nat = false)
      by (intros Hge; apply Nat.ltb_ge, Hge).
    destruct (Nat.lt_ge_cases (S k) 30) as [Hlt | Hge];
      [ destruct (Hnext Hlt) as (Hb & H1 & H2 & H3)
      | pose proof (Hlast Hge) as Hb ];
      rewrite Hb; clear Hnext Hlast Hb;
      unfold countEvents in *;
      destruct (reads k) as [ | | [ | c s ] ]; try destruct removeRejects;
      cbn [filter Auth.isGetItem Auth.isSetTimeout Auth.isAuthenticate
           List.length];
      repeat split; lia.
Qed.

(** Thirty runs are all that can be scheduled. *)
Lemma poll_fuel (n k fuel : nat) :
  (k + S n = 30)%nat -> (S n <= fuel)%nat ->
  Auth.poll reads removeRejects message fuel k =
  Auth.poll reads removeRejects message (S n) k.
Proof.
  revert k fuel. induction n as [ | n IH ]; intros k fuel Hk Hfuel;
    (destruct fuel as [ | fuel ]; [ lia | ]);
    cbn [Auth.poll]; unfold Auth.maxAttempts.
  - assert (Hlast : (S k <? 30)%nat = false) by (apply Nat.ltb_ge; lia).
    rewrite Hlast. reflexivity.
  - assert (Hnext : (S k <? 30)%nat = true) by (apply Nat.ltb_lt; lia).
    rewrite Hnext.
    rewrite (IH (S k) fuel) by lia. reflexivity.
Qed.

Lemma poll_empty_rounds (n k fuel : nat) :
  (forall j, (k <= j < k + n)%nat -> Auth.noSignature (reads j)) ->
  (k + n < 30)%nat ->
  Auth.poll reads removeRejects message (n + fuel) k =
  (emptyRounds n
   ++ Auth.poll reads removeRejects message fuel (k + n))%list.
Proof.
  revert k. induction n as [ | n IH ]; intros k Hempty Hk.
  - rewrite Nat.add_0_r. reflexivity.
  - assert (Hnext : (S k <? 30)%nat = true) by (apply Nat.ltb_lt; lia).
    assert (Hread : Auth.noSignature (reads k)) by (apply Hempty; lia).
    cbn [Nat.add Auth.poll]. unfold Auth.maxAttempts.
    rewrite Hnext.
    rewrite (IH (S k)); [ | intros j Hj; apply Hempty; lia | lia ].
    replace (S k + n)%nat with (k + S n)%nat by lia.
    destruct Hread as [Hr | Hr]; rewrite Hr; reflexivity.
Qed.

Lemma poll_timeout_reads (fuel k : nat) :
  (k < 30)%nat ->
  In Auth.ToastTimeout (Auth.poll reads removeRejects message fuel k) ->
  forall j, (k <= j < 30)%nat -> Auth.noSignature (reads j).
Proof.
  revert k. induction fuel as [ | fuel IH ]; intros k Hk Hin;
    [ destruct Hin | ].
  cbn [Auth.poll] in Hin. unfold Auth.maxAttempts in Hin.
  assert (Hstep : Auth.noSignature (reads k) /\
                  In Auth.ToastTimeout
                     (if (S k <? 30)%nat
                      then Auth.SetTimeout1000
                             :: Auth.poll reads removeRejects message
                                          fuel (S k)
                      else [Auth.SetAuthStep Auth.verifying;
                            Auth.ToastTimeout])).
  { destruct (reads k) as [ | | [ | c s ] ].
    - cbn in Hin. intuition discriminate.
    - split; [ left; reflexivity | ].
      destruct Hin as [Hc | Hin]; [ discriminate | exact Hin ].
    - split; [ right; reflexivity | ].
      destruct Hin as [Hc | Hin]; [ discriminate | exact Hin ].
    - destruct removeRejects; cbn in Hin; intuition discriminate. }
  destruct Hstep as [Hread Hrest].
  intros j Hj.
  destruct (Nat.eq_dec j k) as [ -> | Hne ]; trivial.
  destruct (S k <? 30)%nat eqn:Hnext.
  - apply Nat.ltb_lt in Hnext.
    destruct Hrest as [Hc | Hrest]; [ discriminate | ].
    apply (IH (S k) Hnext Hrest). lia.
  - apply Nat.ltb_ge in Hnext. lia.
Qed.

(** X21.  However the storage answers, the wait reads the storage at most
    30 times, schedules at most 29 one-second timers and calls
    [authenticateWithBackend] at most once; following more than 30 runs
    changes nothing. *)
Theorem X21_poll_bounded (fuel : nat) :
  (countEvents Auth.isGetItem
     (Auth.pollForAuthSignature reads removeRejects message fuel)
   <= 30)%nat /\
  (countEvents Auth.isSetTimeout
     (Auth.pollForAuthSignature reads removeRejects message fuel)
   <= 29)%nat /\
  (countEvents Auth.isAuthenticate
     (Auth.pollForAuthSignature reads removeRejects message fuel)
   <= 1)%nat /\
  (30 <= fuel ->
   Auth.pollForAuthSignature reads removeRejects message fuel =
   Auth.pollForAuthSignature reads removeRejects message 30)%nat.
Proof.
  unfold Auth.pollForAuthSignature.
  destruct (@poll_counts fuel 0%nat) as (H1 & H2 & H3); [ lia | ].
  repeat split; try lia.
  intros Hfuel. apply (@poll_fuel 29%nat 0%nat fuel); lia.
Qed.

(** X22.  When the first [k < 30] reads find nothing and read [k] finds a
    signature, the wait makes [k] empty rounds, reads the signature,
    removes it from the storage and then authenticates with it, in this
    order; if the removal fails, it sets the step back to [verifying] and
    does not authenticate. *)
Theorem X22_poll_found (k : nat) (c : Ascii.ascii) (rest : string) :
  (k < 30)%nat ->
  (forall j, (j < k)%nat -> Auth.noSignature (reads j)) ->
  reads k = Auth.ReadString (String c rest) ->
  Auth.pollForAuthSignature reads removeRejects message 30 =
  (emptyRounds k
   ++ [Auth.GetItem; Auth.RemoveItem]
   ++ (if removeRejects then [Auth.SetAuthStep Auth.verifying]
       else [Auth.AuthenticateWithBackend message (String c rest)]))%list.
Proof.
  intros Hk Hempty Hread. unfold Auth.pollForAuthSignature.
  replace 30%nat with (k + (30 - k))%nat at 1 by lia.
  rewrite poll_empty_rounds;
    [ | intros j Hj; apply Hempty; lia | lia ].
  cbn [Nat.add].
  destruct (30 - k)%nat as [ | fuel ] eqn:Hfuel; [ lia | ].
  cbn [Auth.poll]. rewrite Hread.
  destruct removeRejects; reflexivity.
Qed.

(** X23.  The wait gives up exactly when the first 30 reads find nothing:
    it then makes 29 empty rounds and a last read, sets the step back to
    [verifying] and shows the timeout, 29 seconds of timers after the first
    read; what is stored later is not read. *)
Theorem X23_poll_timeout (fuel : nat) :
  ((forall j, (j < 30)%nat -> Auth.noSignature (reads j)) ->
   Auth.pollForAuthSignature reads removeRejects message 30 =
   (emptyRounds 29
    ++ [Auth.GetItem; Auth.SetAuthStep Auth.verifying;
        Auth.ToastTimeout])%list) /\
  (In Auth.ToastTimeout
      (Auth.pollForAuthSignature reads removeRejects message fuel) ->
   forall j, (j < 30)%nat -> Auth.noSignature (reads j)).
Proof.
  split.
  - intros Hempty. unfold Auth.pollForAuthSignature.
    change 30%nat with (29 + 1)%nat at 1.
    rewrite poll_empty_rounds;
      [ | intros j Hj; apply Hempty; lia | lia ].
    cbn [Nat.add]. cbn [Auth.poll].
    destruct (Hempty 29%nat) as [Hr | Hr]; [ lia | | ];
      rewrite Hr; reflexivity.
  - intros Hin j Hj. unfold Auth.pollForAuthSignature in Hin.
    apply (@poll_timeout_reads fuel 0%nat); [ lia | exact Hin | lia ].
Qed.

End PollFacts.

Lemma X21_poll_bounded_witness :
  Auth.pollForAuthSignature (fun _ => Auth.ReadNull) false
                            String.EmptyString 40 =
  Auth.pollForAuthSignature (fun _ => Auth.ReadNull) false
                            String.EmptyString 30.
Proof.
  apply (@X21_poll_bounded (fun _ => Auth.ReadNull) false
                           String.EmptyString 40).
  repeat constructor.
Defined.

Lemma X22_poll_found_witness :
  let sig := String.String (Ascii.ascii_of_nat 115) String.EmptyString in
  let reads k := if Nat.eqb k 2 then Auth.ReadString sig
                 else Auth.ReadNull in
  Auth.pollForAuthSignature reads false String.EmptyString 30 =
  (emptyRounds 2
   ++ [Auth.GetItem; Auth.RemoveItem;
       Auth.AuthenticateWithBackend String.EmptyString sig])%list.
Proof.
  cbv zeta.
  apply (@X22_poll_found
           (fun k => if Nat.eqb k 2
                     then Auth.ReadString
                            (String.String (Ascii.ascii_of_nat 115)
                                           String.EmptyString)
                     else Auth.ReadNull)
           false String.EmptyString 2).
  - repeat constructor.
  - intros j Hj. left.
    destruct j as [ | [ | j ] ]; [ reflexivity | reflexivity | lia ].
  - reflexivity.
Defined.

Lemma X23_poll_timeout_witness :
  Auth.pollForAuthSignature (fun _ => Auth.ReadNull) false
                            String.EmptyString 30 =
  (emptyRounds 29
   ++ [Auth.GetItem; Auth.SetAuthStep Auth.verifying;
       Auth.ToastTimeout])%list.
Proof.
  apply (@X23_poll_timeout (fun _ => Auth.ReadNull) false
                           String.EmptyString 30).
  intros j Hj. left. reflexivity.
Defined.

(** ** Further properties of the helpers *)

Section HelperProperties.

Local Open Scope Q_scope.

Lemma scaled_sign (k d : Q) :
  0 < k ->
  (k * d < 0 <-> d < 0) /\ (k * d == 0 <-> d == 0) /\ (0 < k * d <-> 0 < d).
Proof.
  intros Hk.
  assert (Hpos : 0 < d -> 0 < k * d)
    by (intros Hd; apply Qmult_lt_0_compat; trivial).
  assert (Hneg : d < 0 -> k * d < 0).
  { intros Hd. assert (0 < k * - d) by (apply Qmult_lt_0_compat; lra).
    setoid_replace (k * d) with (- (k * - d)) by ring. lra. }
  assert (Hzero : d == 0 -> k * d == 0) by (intros Hd; rewrite Hd; ring).
  repeat split; intros Hx;
    destruct (Q_dec d 0) as [[Hlt | Hgt] | Heq];
    try (specialize (Hpos Hgt)); try (specialize (Hneg Hlt));
    try (specialize (Hzero Heq)); lra.
Qed.

Lemma isolatedLiq_gap (entry leverage mmr : Q) :
  mmr < 1 -> -1 < mmr ->
  isolatedLiq entry leverage long mmr - entry ==
  entry / (1 - mmr) * (mmr - 1 / Qmax 1 leverage) /\
  isolatedLiq entry leverage short mmr - entry ==
  entry / (1 + mmr) * (1 / Qmax 1 leverage - mmr).
Proof.
  intros Hm1 Hm2.
  rewrite (isolatedLiq_unfold _ _ long), (isolatedLiq_unfold _ _ short).
  unfold isolatedLiq_spec.
  pose proof (Qmax_one_lower leverage) as HL.
  set (L := Qmax 1 leverage) in *. clearbody L.
  split; field; lra.
Qed.





Lemma tick_fields (anchor M level span : Q) :
  1 <= M ->
  anchor * (1 + level * span / M) ==
  anchor * (1 + level * span * 100 / (100 * M)).
Proof. intros HM. field. lra. Qed.




End HelperProperties.

(** In binary64 too the series read back gives the market price in cents:
    for a market at 150.37 the last value is the double 150.37. *)
Example fetchHistoricalData_binary64 :
  match
    Backend.fetchHistoricalData (T := Binary64.f64) Backend.sol None
      (Backend.Ok
         {| Backend.success := true;
            Backend.data :=
              Some [ {| Backend.symbol := Backend.marketKey Backend.sol;
                        Backend.price := dec 15037 100;
                        Backend.change24h := ofZ 0%Z;
                        Backend.volume24h := None |} ];
            Backend.timestamp := String.EmptyString |})
      (ofZ 1700000000000%Z) (fun _ => dec 3 4)
  with
  | Backend.Ok points =>
      List.length points = 7%nat /\
      Backend.getCurrentPriceFromHistorical points = dec 15037 100
  | Backend.Throw _ => False
  end.
Proof. vm_compute. split; reflexivity. Qed.
